(** * parse.py: extraction of tables and interaction edges from cached
    search responses

    A shallow embedding of [src/parse.py] and the properties of its
    reference resolver, edge builders and batch aggregator.

    Python values are an inductive type, exceptions are an error monad
    ([py]), and the aggregator runs in a state-and-exception monad ([M]) over
    a store that holds the mutable lists, the log and the output directory.
    Global names are resolved in an explicit module namespace, because
    several functions of the file read names the file never binds. *)

From Stdlib Require Import ZArith.
From stdpp Require Import base option list strings gmap fin_maps pretty.

Local Open Scope Z_scope.
Local Open Scope string_scope.
Local Open Scope list_scope.

Set Warnings "-register-all,-clear-no-such-hyp".

(** ** Exceptions *)

Inductive exn :=
| KeyError | TypeError | ValueError | IndexError | NameError
| AttributeError | ZeroDivisionError | OSError | InvalidIndexError.

Inductive py (A : Type) :=
| Ok (a : A)
| Raise (e : exn).
Arguments Ok {A} a.
Arguments Raise {A} e.

#[global] Instance py_ret : MRet py := fun A a => Ok a.
#[global] Instance py_bind : MBind py := fun A B f m =>
  match m with
  | Ok a => f a
  | Raise e => Raise e
  end.

(** [try: body / except: handler] with a bare [except]: every exception
    is handled. *)
Definition try_except {A} (body : py A) (handler : py A) : py A :=
  match body with
  | Ok a => Ok a
  | Raise _ => handler
  end.

(** [try: body / except KeyError: handler]: only [KeyError] is handled, any
    other exception propagates. *)
Definition try_except_KeyError {A} (body : py A) (handler : py A) : py A :=
  match body with
  | Ok a => Ok a
  | Raise KeyError => handler
  | Raise e => Raise e
  end.

Definition raises {A} (m : py A) : Prop := ∃ e, m = Raise e.

(** ** Values *)

(** Hashable data, as used for dictionary keys and axis labels. *)
Inductive label :=
| LStr (s : string)
| LInt (n : Z)
| LNone
| LNaN.

Coercion LStr : string >-> label.

#[global] Instance label_eq_dec : EqDecision label.
Proof. solve_decision. Defined.

#[global] Instance label_countable : Countable label.
Proof.
  refine (inj_countable'
    (fun l => match l with
              | LStr s => inl s
              | LInt n => inr (inl n)
              | LNone => inr (inr true)
              | LNaN => inr (inr false)
              end)
    (fun x => match x with
              | inl s => LStr s
              | inr (inl n) => LInt n
              | inr (inr true) => LNone
              | inr (inr false) => LNaN
              end) _).
  by intros [].
Defined.

(** Objects that are not data: what a global name of the module can be
    bound to besides a value. *)
Inductive pyobj :=
| OEnum (members : list (string * Z))     (* a subclass of [Enum] *)
| OMember (value : Z)                     (* a member of such a class *)
| OModule (attrs : list (string * pyobj)) (* a module or package *)
| OLogger                                 (* a [logging.Logger] *)
| OLib (name : string).                   (* a library module or callable *)

(** Values. The data are what [json.load] and pandas hand to the code:
    [None], the NaN that pandas puts in a missing cell, integers, strings,
    lists and dictionaries. A dictionary is the list of its items in
    insertion order; a key that occurs again further down the list is
    shadowed by its first occurrence. *)
Inductive pyval :=
| VNone
| VNaN
| VInt (n : Z)
| VStr (s : string)
| VList (l : list pyval)
| VDict (d : list (label * pyval))
| VObj (o : pyobj).

(** How a value behaves as a dictionary key or axis label. *)
Inductive key_class :=
| Hashable (k : label)   (* hashes and compares as the label [k] *)
| Unhashable             (* [list] and [dict]: hashing raises TypeError *)
| Identity.              (* an object hashed by identity: equal to no data *)

Definition classify_key (v : pyval) : key_class :=
  match v with
  | VNone => Hashable LNone
  | VNaN => Hashable LNaN
  | VInt n => Hashable (LInt n)
  | VStr s => Hashable (LStr s)
  | VList _ | VDict _ => Unhashable
  | VObj _ => Identity
  end.

(** *** Dictionaries as ordered items *)

Fixpoint assoc {K A} `{EqDecision K} (k : K) (l : list (K * A)) : option A :=
  match l with
  | [] => None
  | (k', a) :: l' => if decide (k = k') then Some a else assoc k l'
  end.

(** Keys in order of first insertion. *)
Fixpoint first_seen (seen l : list label) : list label :=
  match l with
  | [] => []
  | k :: l' =>
      if decide (k ∈ seen) then first_seen seen l'
      else k :: first_seen (k :: seen) l'
  end.

Definition dict_keys (d : list (label * pyval)) : list label :=
  first_seen [] (d.*1).

(** [d[k] = v]: an existing key keeps its place, a new key goes last. *)
Fixpoint dict_set (k : label) (v : pyval) (d : list (label * pyval))
  : list (label * pyval) :=
  match d with
  | [] => [(k, v)]
  | (k', v') :: d' =>
      if decide (k = k') then (k, v) :: d' else (k', v') :: dict_set k v d'
  end.

(** [dict(zip(keys, values))]. *)
Definition dict_of_zip (keys : list label) (values : list pyval)
  : list (label * pyval) :=
  foldl (fun d kv => dict_set kv.1 kv.2 d) [] (zip keys values).

(** [a.update(r)]. *)
Definition dict_update (a r : list (label * pyval)) : list (label * pyval) :=
  foldl (fun d k => match assoc k r with
                    | Some v => dict_set k v d
                    | None => d
                    end) a (dict_keys r).

(** Subscript [v[k]] with a string key: defined on dictionaries. *)
Definition getitem (v : pyval) (k : label) : py pyval :=
  match v with
  | VDict d =>
      match assoc k d with
      | Some w => Ok w
      | None => Raise KeyError
      end
  | _ => Raise TypeError
  end.

(** Subscript [l[i]] on a list. *)
Definition list_getitem {A} (l : list A) (i : nat) : py A :=
  match l !! i with
  | Some a => Ok a
  | None => Raise IndexError
  end.

(** *** Dictionaries used as lookup tables *)

(** [d[k]] for a dictionary keyed by data. *)
Definition dict_getitem (d : gmap label pyval) (k : pyval) : py pyval :=
  match classify_key k with
  | Hashable l =>
      match d !! l with
      | Some v => Ok v
      | None => Raise KeyError
      end
  | Unhashable => Raise TypeError
  | Identity => Raise KeyError
  end.

(** ** The module namespace *)

(** Reading a global name: [NameError] when the namespace does not bind
    it. *)
Definition lookup_global (G : gmap string pyobj) (name : string) : py pyobj :=
  match G !! name with
  | Some o => Ok o
  | None => Raise NameError
  end.

(** Attribute access [o.name]. *)
Definition getattr (o : pyval) (name : string) : py pyval :=
  match o with
  | VObj (OModule attrs) =>
      match assoc name attrs with
      | Some a => Ok (VObj a)
      | None => Raise AttributeError
      end
  | VObj (OEnum members) =>
      match assoc name members with
      | Some z => Ok (VObj (OMember z))
      | None => Raise AttributeError
      end
  | VObj (OMember z) =>
      if decide (name = "value") then Ok (VInt z) else Raise AttributeError
  | _ => Raise AttributeError
  end.

(** [class RType(Enum)], lines 9-22. *)
Definition RType : pyobj :=
  OEnum [("RETWEET", 1); ("QUOTE", 2); ("REPLY", 3); ("MENTION", 4)].

(** The namespace the file builds when it is imported: its four imports
    (lines 3-6), the class and the functions it defines. Nothing else is
    bound: in particular not [utils], [logger], [os], [osp], [json] or
    [time], which function bodies of the file read. *)
Definition module_globals : gmap string pyobj :=
  list_to_map
    [ ("Enum", OLib "enum.Enum"); ("pd", OLib "pandas"); ("np", OLib "numpy");
      ("logging", OLib "logging"); ("RType", RType);
      ("parse_data", OLib "parse_data"); ("parse_ref", OLib "parse_ref");
      ("parse_users", OLib "parse_users"); ("parse_media", OLib "parse_media");
      ("parse_retweets", OLib "parse_retweets");
      ("parse_quotes", OLib "parse_quotes");
      ("parse_replies", OLib "parse_replies");
      ("parse_mentions", OLib "parse_mentions");
      ("concat_and_pickle", OLib "concat_and_pickle");
      ("read_aggregate_pickle", OLib "read_aggregate_pickle") ].

(** ** Tables *)

(** A pandas [DataFrame]: row labels, column labels and the cells row by
    row; a [Series] is one labelled column. Labels need not be distinct.
    The cells are kept as they were loaded (the dtype of a column is not
    modelled). *)
Record DataFrame := mkDF {
  df_index : list label;
  df_columns : list label;
  df_rows : list (list pyval)
}.

Record Series := mkSeries {
  s_index : list label;
  s_values : list pyval
}.

Definition range_index (n : nat) : list label :=
  (fun i => LInt (Z.of_nat i)) <$> seq 0 n.

(** [pd.DataFrame()]: no rows, no columns. *)
Definition empty_frame : DataFrame := mkDF [] [] [].

Definition cell (row : list pyval) (j : nat) : pyval := default VNaN (row !! j).

Fixpoint column_pos (c : label) (cols : list label) : option nat :=
  match cols with
  | [] => None
  | c' :: cols' => if decide (c = c') then Some 0%nat else S <$> column_pos c cols'
  end.

(** [df[c]] for a label that names one column; [KeyError] when no column
    has it. *)
Definition df_getitem (df : DataFrame) (c : label) : py Series :=
  match column_pos c (df_columns df) with
  | Some j => Ok (mkSeries (df_index df) ((fun r => cell r j) <$> df_rows df))
  | None => Raise KeyError
  end.

Definition as_label (v : pyval) : py label :=
  match classify_key v with
  | Hashable l => Ok l
  | _ => Raise TypeError
  end.

(** [df.set_index(c)]: the cells of column [c] become the row labels and
    the column is dropped. The cells of a table are data, and a row label
    has to be hashable. *)
Definition set_index (c : label) (df : DataFrame) : py DataFrame :=
  match column_pos c (df_columns df) with
  | Some j =>
      idx ← mapM (fun r => as_label (cell r j)) (df_rows df);
      Ok (mkDF idx (delete j (df_columns df)) (delete j <$> df_rows df))
  | None => Raise KeyError
  end.

(** [df.T] *)
Definition transpose (df : DataFrame) : DataFrame :=
  mkDF (df_columns df) (df_index df)
       ((fun j => (fun r => cell r j) <$> df_rows df)
          <$> seq 0 (length (df_columns df))).

(** [df.reset_index(drop=True)] *)
Definition reset_index_drop (df : DataFrame) : DataFrame :=
  mkDF (range_index (length (df_rows df))) (df_columns df) (df_rows df).

(** [df.to_dict(orient="records")]: one dictionary per row; with a
    repeated column label the later cell overwrites the earlier one. *)
Definition to_dict_records (df : DataFrame) : list pyval :=
  (fun r => VDict (dict_of_zip (df_columns df) r)) <$> df_rows df.

(** [s.to_dict()]: row label to value, later rows overwriting earlier
    ones. *)
Definition Series_to_dict (s : Series) : gmap label pyval :=
  foldl (fun m kv => <[kv.1 := kv.2]> m) ∅ (zip (s_index s) (s_values s)).

(** The items of every element when all of them are dictionaries. *)
Fixpoint as_records (l : list pyval) : option (list (list (label * pyval))) :=
  match l with
  | [] => Some []
  | VDict d :: l' => (d ::.) <$> as_records l'
  | _ :: _ => None
  end.

(** The table of a list of records: the columns are the keys in order of
    first appearance, a record without a key gets NaN in that column. *)
Definition frame_of_records (recs : list (list (label * pyval))) : DataFrame :=
  let cols := first_seen [] (concat (dict_keys <$> recs)) in
  mkDF (range_index (length recs)) cols
       ((fun d => (fun c => default VNaN (assoc c d)) <$> cols) <$> recs).

(** Column-wise [pd.concat(frames, axis=1)] of frames that carry the same
    row labels: the columns are put side by side. *)
Definition hstack (frames : list DataFrame) : DataFrame :=
  match frames with
  | [] => empty_frame
  | f :: _ =>
      mkDF (df_index f) (concat (df_columns <$> frames))
           ((fun i => concat ((fun g => match df_rows g !! i with
                                        | Some r => r
                                        | None => replicate (length (df_columns g)) VNaN
                                        end) <$> frames))
              <$> seq 0 (length (df_index f)))
  end.

Definition same_index (frames : list DataFrame) : bool :=
  match frames with
  | [] => true
  | f :: fs => forallb (fun g => bool_decide (df_index g = df_index f)) fs
  end.

(** Row-wise [pd.concat(frames)] of frames whose column labels are
    distinct: the columns are the union in order of first appearance. *)
Definition reindex_columns (cols : list label) (f : DataFrame) : list (list pyval) :=
  (fun r => (fun c => match column_pos c (df_columns f) with
                      | Some j => cell r j
                      | None => VNaN
                      end) <$> cols) <$> df_rows f.

Definition vstack (frames : list DataFrame) : DataFrame :=
  let cols := first_seen [] (concat (df_columns <$> frames)) in
  mkDF (concat (df_index <$> frames)) cols
       (concat (reindex_columns cols <$> frames)).

(** ** What is left to pandas *)

(** The results of pandas on inputs whose shape the program does not
    expect, and of the operating system when a file is written, are not
    fixed here: every definition below takes them as given and every
    theorem holds whatever they are. *)
Record Pandas := mkPandas {
  (* [pd.DataFrame(t)] for [t] a mapping of columns, or a list whose first
     element is not a mapping *)
  frame_of_irregular : pyval → py DataFrame;
  (* [s.apply(pd.Series)] when some cell of [s] is not a mapping *)
  expand_irregular : Series → py DataFrame;
  (* [pd.concat(frames, axis=1)] when the row labels differ *)
  hstack_unaligned : list DataFrame → py DataFrame;
  (* [pd.concat(frames)] when a frame repeats a column label and the
     frames differ in their columns *)
  vstack_irregular : list DataFrame → py DataFrame;
  (* [df.to_pickle(path, protocol)]: does the write succeed *)
  pickle_ok : string * string → DataFrame → Z → bool
}.

Section Extractors.
Context (P : Pandas).

(** [pd.DataFrame(t)] and [pd.DataFrame.from_dict(t)] (default
    orientation), which hand [t] to the same constructor. *)
Definition pd_DataFrame (t : pyval) : py DataFrame :=
  match t with
  | VNone => Ok empty_frame
  | VList [] => Ok empty_frame
  | VList (VDict d :: l) =>
      match as_records (VDict d :: l) with
      | Some recs => Ok (frame_of_records recs)
      | None => Raise AttributeError
      end
  | VList _ | VDict _ => frame_of_irregular P t
  | _ => Raise ValueError
  end.

(** [s.apply(pd.Series)]: a column of mappings is expanded into one
    column per key, on the row labels of [s]. *)
Definition apply_pd_Series (s : Series) : py DataFrame :=
  match as_records (s_values s) with
  | Some recs =>
      let f := frame_of_records recs in
      Ok (mkDF (s_index s) (df_columns f) (df_rows f))
  | None => expand_irregular P s
  end.

(** [pd.concat(frames, axis=1)] *)
Definition pd_concat_axis1 (frames : list DataFrame) : py DataFrame :=
  if same_index frames then Ok (hstack frames) else hstack_unaligned P frames.

(** Lines 46-64. *)
Definition default_ref : list (label * pyval) :=
  [(LStr "replied_to", VStr ""); (LStr "quoted", VStr "");
   (LStr "retweeted", VStr "")].

Definition parse_ref_body (t : pyval) : py pyval :=
  let a := default_ref in
  x ← pd_DataFrame t;
  x ← set_index "type" x;
  let x := transpose x in
  let x := reset_index_drop x in
  let x := to_dict_records x in
  x0 ← list_getitem x 0;
  match x0 with
  | VDict r => Ok (VDict (dict_update a r))
  | _ => Raise TypeError
  end.

Definition parse_ref (t : pyval) : py pyval :=
  try_except (parse_ref_body t) (Ok (VDict default_ref)).

(** Lines 25-43. *)
Definition parse_data (data : pyval) : py DataFrame :=
  df ← pd_DataFrame data;
  metrics ← df_getitem df "public_metrics" ≫= apply_pd_Series;
  try_except_KeyError
    (col ← df_getitem df "referenced_tweets";
     ref1 ← mapM parse_ref (s_values col);
     ref2 ← pd_DataFrame (VList ref1);
     pd_concat_axis1 [df; metrics; ref2])
    (Ok df).

End Extractors.

(** ** Edge builders *)

Section EdgeBuilders.
Context (G : gmap string pyobj).

(** [RType.<member>.value], with [RType] read from the module
    namespace. *)
Definition RType_value (member : string) : py pyval :=
  cls ← lookup_global G "RType";
  m ← getattr (VObj cls) member;
  getattr m "value".

(** [utils.RType.<member>.value], as the retweet and quote builders
    write it. *)
Definition utils_RType_value (member : string) : py pyval :=
  utils ← lookup_global G "utils";
  cls ← getattr (VObj utils) "RType";
  m ← getattr cls member;
  getattr m "value".

Definition edge (src tar tweet rtype : pyval) : pyval :=
  VDict [(LStr "src_user_id", src); (LStr "tar_user_id", tar);
         (LStr "tweet_id", tweet); (LStr "rtype", rtype)].

(** [df.set_index("id")["author_id"].to_dict()] *)
Definition author_by_id (df : DataFrame) : py (gmap label pyval) :=
  x ← set_index "id" df;
  s ← df_getitem x "author_id";
  Ok (Series_to_dict s).

(** Lines 118-150. *)
Definition parse_retweets (tweet_id author_id retweet_id : pyval)
    (tweet_df referenced_df : DataFrame) : py pyval :=
  tweet_dict ← author_by_id tweet_df;
  ref_dict ← author_by_id referenced_df;
  try_except
    (rt ← dict_getitem ref_dict retweet_id;
     rtype ← utils_RType_value "RETWEET";
     Ok (edge rt author_id tweet_id rtype))
    (try_except
       (rt ← dict_getitem tweet_dict retweet_id;
        rtype ← utils_RType_value "RETWEET";
        Ok (edge rt author_id tweet_id rtype))
       (Ok (VDict []))).

(** Lines 153-185. *)
Definition parse_quotes (tweet_id author_id quote_id : pyval)
    (tweet_df referenced_df : DataFrame) : py pyval :=
  tweet_dict ← author_by_id tweet_df;
  ref_dict ← author_by_id referenced_df;
  try_except
    (quid ← dict_getitem ref_dict quote_id;
     rtype ← utils_RType_value "QUOTE";
     Ok (edge quid author_id tweet_id rtype))
    (try_except
       (quid ← dict_getitem tweet_dict quote_id;
        rtype ← utils_RType_value "QUOTE";
        Ok (edge quid author_id tweet_id rtype))
       (Ok (VDict []))).

(** Lines 188-203. *)
Definition parse_replies (tweet_id author_id in_reply_to_user_id : pyval)
  : py pyval :=
  rtype ← RType_value "REPLY";
  Ok (edge in_reply_to_user_id author_id tweet_id rtype).

(** [entities.keys()] *)
Definition keys (v : pyval) : py (list label) :=
  match v with
  | VDict d => Ok (dict_keys d)
  | _ => Raise AttributeError
  end.

Definition chars (s : string) : list pyval :=
  (fun a => VStr (String a EmptyString)) <$> String.list_ascii_of_string s.

Definition value_of_label (k : label) : pyval :=
  match k with
  | LStr s => VStr s
  | LInt n => VInt n
  | LNone => VNone
  | LNaN => VNaN
  end.

(** The elements a [for] loop draws from a value. *)
Definition iterate (v : pyval) : py (list pyval) :=
  match v with
  | VList l => Ok l
  | VDict d => Ok (value_of_label <$> dict_keys d)
  | VStr s => Ok (chars s)
  | _ => Raise TypeError
  end.

(** Lines 206-227. *)
Definition parse_mentions (tweet_id author_id entities : pyval)
  : py (list pyval) :=
  ks ← keys entities;
  if decide (LStr "mentions" ∈ ks) then
    ms ← getitem entities "mentions" ≫= iterate;
    mapM (fun m =>
            tar ← getitem m "id";
            rtype ← RType_value "MENTION";
            Ok (edge author_id tar tweet_id rtype)) ms
  else Ok [].

End EdgeBuilders.

(** ** The run-time store *)

Inductive level := INFO | WARNING.

(** The texts handed to the logger, by the statement that builds them. *)
Inductive message :=
| NoUsers (file : option string)             (* lines 80-84 *)
| NoMedia (file : option string)             (* lines 107-111 *)
| CannotConcat (df_name : string) (n : nat)   (* line 245 *)
| Saved (df_name : string) (path : string * string)       (* line 254 *)
| CannotSave (df_name : string) (path : string * string)  (* line 256 *)
| FilesToProcess (n : nat)                   (* line 276 *)
| NoReferenced (file : string)               (* lines 294-296 *)
| CannotParse (file : string) (e : exn)      (* line 298 *)
| CannotLoad (file : string) (e : exn)       (* line 302 *)
| Iter (i : nat).                            (* line 307 *)

(** The mutable lists of tables live in [heap], addressed by the reference
    a variable holds; [next] is the next free address. [disk] is the output
    directory: a path ([osp.join] of a directory and a file name) to the
    table pickled there. *)
Record store := mkStore {
  heap : gmap nat (list DataFrame);
  next : nat;
  not_loaded : list (string * string);
  log : list (level * message);
  disk : gmap (string * string) DataFrame
}.

Definition M (A : Type) : Type := store → py A * store.

#[global] Instance M_ret : MRet M := fun A a s => (Ok a, s).
#[global] Instance M_bind : MBind M := fun A B f m s =>
  match m s with
  | (Ok a, s') => f a s'
  | (Raise e, s') => (Raise e, s')
  end.

Definition lift {A} (r : py A) : M A := fun s => (r, s).

(** [try: body / except Exception: handler e]; the effects of [body] up to
    the exception stay. *)
Definition catch {A} (body : M A) (handler : exn → M A) : M A := fun s =>
  match body s with
  | (Ok a, s') => (Ok a, s')
  | (Raise e, s') => handler e s'
  end.

(** As [catch], for [except KeyError] only. *)
Definition catch_KeyError {A} (body : M A) (handler : M A) : M A := fun s =>
  match body s with
  | (Raise KeyError, s') => handler s'
  | r => r
  end.

(** [x = []] *)
Definition new_list : M nat := fun s =>
  (Ok (next s),
   mkStore (<[next s := []]> (heap s)) (S (next s)) (not_loaded s) (log s) (disk s)).

(** Reading the list behind a reference. *)
Definition deref (l : nat) : M (list DataFrame) := fun s =>
  match heap s !! l with
  | Some frames => (Ok frames, s)
  | None => (Raise TypeError, s)
  end.

(** [l.append(df)] *)
Definition append (l : nat) (df : DataFrame) : M unit := fun s =>
  match heap s !! l with
  | Some frames =>
      (Ok (), mkStore (<[l := frames ++ [df]]> (heap s)) (next s)
                      (not_loaded s) (log s) (disk s))
  | None => (Raise AttributeError, s)
  end.

(** [not_loaded.append(path)] *)
Definition append_not_loaded (path : string * string) : M unit := fun s =>
  (Ok (), mkStore (heap s) (next s) (not_loaded s ++ [path]) (log s) (disk s)).

(** [logger.info(msg)] and [logger.warning(msg)] on the object [logger]:
    the method is looked up, then the text is built, then the record is
    emitted. *)
Definition method (logger : pyobj) : M unit :=
  match logger with
  | OLogger => mret ()
  | _ => fun s => (Raise AttributeError, s)
  end.

Definition emit (lvl : level) (msg : message) : M unit := fun s =>
  (Ok (), mkStore (heap s) (next s) (not_loaded s) (log s ++ [(lvl, msg)]) (disk s)).

Definition log_to (logger : pyobj) (lvl : level) (msg : message) : M unit :=
  method logger ;; emit lvl msg.

(** Running a computation and keeping its outcome as a value. *)
Definition attempt {A} (m : M A) : M (py A) := fun s =>
  let r := m s in (Ok r.1, r.2).

(** A library module read from the namespace under the name the code
    uses for it. *)
Definition library (G : gmap string pyobj) (name lib : string) : M unit :=
  o ← lift (lookup_global G name);
  match o with
  | OLib n => if decide (n = lib) then mret () else lift (Raise AttributeError)
  | _ => lift (Raise AttributeError)
  end.

(** What the file system hands to the run: the entries of a directory,
    whether a file opens, and what [json.load] makes of it. *)
Record Files := mkFiles {
  fs_listdir : string → py (list string);
  fs_open : string * string → py unit;
  fs_json : string * string → py pyval
}.

(** The four accumulators of [read_aggregate_pickle], line 272. *)
Record accumulators := mkAccs {
  all_tweets : nat;
  all_users : nat;
  all_media : nat;
  all_ref : nat
}.

(** ** Batch aggregator *)

Section Aggregator.
Context (G : gmap string pyobj) (P : Pandas) (F : Files).

(** Lines 67-91. *)
Definition parse_users (response : pyval) (logger : pyobj)
    (file : option string) : M DataFrame :=
  match (i ← getitem response "includes"; getitem i "users") with
  | Raise KeyError => log_to logger INFO (NoUsers file) ;; mret empty_frame
  | Raise e => lift (Raise e)
  | Ok data =>
      lift (df ← pd_DataFrame P data;
            metrics ← df_getitem df "public_metrics" ≫= apply_pd_Series P;
            pd_concat_axis1 P [df; metrics])
  end.

(** Lines 94-115. *)
Definition parse_media (response : pyval) (logger : pyobj)
    (file : option string) : M DataFrame :=
  match (i ← getitem response "includes"; getitem i "media") with
  | Raise KeyError => log_to logger INFO (NoMedia file) ;; mret empty_frame
  | Raise e => lift (Raise e)
  | Ok data => lift (pd_DataFrame P data)
  end.

(** A call that leaves out a parameter without default: binding the
    arguments raises [TypeError] and the body does not run. Lines 286 and
    288 call [parse_users(res)] and [parse_media(res)], whose second
    parameter [logger] has no default. *)
Definition call_without_logger (f : pyval → pyobj → option string → M DataFrame)
    (res : pyval) : M DataFrame :=
  lift (Raise TypeError).

(** [pd.concat(df_list)], line 243: nothing to concatenate raises
    [ValueError]. *)
Definition pd_concat (frames : list DataFrame) : py DataFrame :=
  match frames with
  | [] => Raise ValueError
  | f :: fs =>
      if forallb (fun g => bool_decide (NoDup (df_columns g))) frames
      then Ok (vstack frames)
      else if forallb (fun g => bool_decide (df_columns g = df_columns f)) fs
      then Ok (mkDF (concat (df_index <$> frames)) (df_columns f)
                    (concat (df_rows <$> frames)))
      else vstack_irregular P frames
  end.

(** Lines 248-250: a cell that is [None] or a string of white space only
    (the pattern [^\s*$]) becomes NaN. *)
Definition is_space (a : Ascii.ascii) : bool :=
  let n := Ascii.nat_of_ascii a in
  bool_decide (9 ≤ n ≤ 13 ∨ 28 ≤ n ≤ 32)%nat.

Definition is_blank (s : string) : bool :=
  forallb is_space (String.list_ascii_of_string s).

Definition cleanup (v : pyval) : pyval :=
  match v with
  | VNone => VNaN
  | VStr s => if is_blank s then VNaN else v
  | _ => v
  end.

Definition replace_nulls (df : DataFrame) : DataFrame :=
  mkDF (df_index df) (df_columns df) (map (map cleanup) (df_rows df)).

(** [df.to_pickle(path, protocol=...)] *)
Definition to_pickle (df : DataFrame) (path : string * string)
    (protocol : Z) : M unit := fun s =>
  if pickle_ok P path df protocol
  then (Ok (), mkStore (heap s) (next s) (not_loaded s) (log s)
                       (<[path := df]> (disk s)))
  else (Raise OSError, s).

(** Lines 230-256. [logger] is not a parameter of this function: it is
    read from the module namespace. *)
Definition concat_and_pickle (df_list : nat) (df_name : string)
    (pickle_path : string * string) (pickle_protocol : Z) : M unit :=
  r ← attempt (frames ← deref df_list; lift (pd_concat frames));
  match r with
  | Raise _ =>
      logger ← lift (lookup_global G "logger");
      method logger ;;
      frames ← deref df_list;
      emit WARNING (CannotConcat df_name (length frames))
  | Ok df =>
      let df := replace_nulls df in
      catch
        (to_pickle df pickle_path pickle_protocol ;;
         logger ← lift (lookup_global G "logger");
         log_to logger INFO (Saved df_name pickle_path))
        (fun _ =>
           logger ← lift (lookup_global G "logger");
           log_to logger WARNING (CannotSave df_name pickle_path))
  end.

(** [f.endswith(suffix)] *)
Fixpoint startswith (s p : string) : bool :=
  match p, s with
  | EmptyString, _ => true
  | String b p', String a s' => bool_decide (a = b) && startswith s' p'
  | String _ _, EmptyString => false
  end.

Definition endswith (s suffix : string) : bool :=
  startswith (String.rev s) (String.rev suffix).

Section Loop.
Context (cache_dir save_dir : string) (logger : pyobj)
        (agg_interval pickle_protocol : Z) (A : accumulators).

(** Lines 280-304: one file is loaded and its tables are appended. *)
Definition process_file (file : string) : M unit :=
  catch
    (library G "osp" "os.path" ;;
     lift (fs_open F (cache_dir, file)) ;;
     library G "json" "json" ;;
     res ← lift (fs_json F (cache_dir, file));
     catch
       (tweets ← lift (getitem res "data" ≫= parse_data P);
        append (all_tweets A) tweets ;;
        users ← call_without_logger parse_users res;
        append (all_users A) users ;;
        media ← call_without_logger parse_media res;
        append (all_media A) media ;;
        catch_KeyError
          (ref ← lift (i ← getitem res "includes";
                       t ← getitem i "tweets";
                       parse_data P t);
           append (all_ref A) ref)
          (log_to logger INFO (NoReferenced file)))
       (fun e => log_to logger WARNING (CannotParse file e)))
    (fun e =>
       log_to logger WARNING (CannotLoad file e) ;;
       library G "osp" "os.path" ;;
       append_not_loaded (cache_dir, file)).

(** Line 306: [(i % agg_interval == 0 and i > 0) or (i == len(files) - 1)]. *)
Definition flush_trigger (i n : nat) : py bool :=
  if decide (agg_interval = 0) then Raise ZeroDivisionError
  else Ok (bool_decide (Z.of_nat i `mod` agg_interval = 0 ∧ 0 < Z.of_nat i)
           || bool_decide (Z.of_nat i = Z.of_nat n - 1)).

Definition pickle_name (kind : string) (i : nat) : string :=
  kind +:+ "_" +:+ pretty i +:+ ".pickle".

(** Lines 307-328: the four accumulators are handed to
    [concat_and_pickle], one after the other. *)
Definition flush (i : nat) : M unit :=
  method logger ;;
  library G "time" "time" ;;
  emit INFO (Iter i) ;;
  library G "osp" "os.path" ;;
  concat_and_pickle (all_tweets A) "tweets"
    (save_dir, pickle_name "tweets" i) pickle_protocol ;;
  library G "osp" "os.path" ;;
  concat_and_pickle (all_users A) "users"
    (save_dir, pickle_name "users" i) pickle_protocol ;;
  library G "osp" "os.path" ;;
  concat_and_pickle (all_media A) "media"
    (save_dir, pickle_name "media" i) pickle_protocol ;;
  library G "osp" "os.path" ;;
  concat_and_pickle (all_ref A) "ref"
    (save_dir, pickle_name "ref" i) pickle_protocol.

(** Lines 280-328: the body of the loop for the file at position [i] of
    [n]. *)
Definition loop_body (n i : nat) (file : string) : M unit :=
  process_file file ;;
  b ← lift (flush_trigger i n);
  if b : bool then flush i else mret ().

(** [for i, file in enumerate(files)], from position [i] on. *)
Fixpoint for_files (n i : nat) (files : list string) : M unit :=
  match files with
  | [] => mret ()
  | file :: rest => loop_body n i file ;; for_files n (S i) rest
  end.

End Loop.

(** [not_loaded = []], line 277. *)
Definition new_not_loaded : M unit := fun s =>
  (Ok (), mkStore (heap s) (next s) [] (log s) (disk s)).

(** Lines 259-328. *)
Definition read_aggregate_pickle (cache_dir save_dir : string)
    (logger : pyobj) (agg_interval pickle_protocol : Z) (debug_mode : bool)
  : M unit :=
  all_tweets ← new_list;
  all_users ← new_list;
  all_media ← new_list;
  all_ref ← new_list;
  library G "os" "os" ;;
  names ← lift (fs_listdir F cache_dir);
  let files := filter (fun f => endswith f "json") names in
  let files := if debug_mode then take 10 files else files in
  log_to logger INFO (FilesToProcess (length files)) ;;
  new_not_loaded ;;
  library G "time" "time" ;;
  for_files cache_dir save_dir logger agg_interval pickle_protocol
    (mkAccs all_tweets all_users all_media all_ref)
    (length files) 0 files.

End Aggregator.

(** * Vocabulary of the statements *)

(** The reference types of the data model and a reference list built from
    typed entries [{type, id}]. *)
Inductive reftype := replied_to | quoted | retweeted.

#[global] Instance reftype_eq_dec : EqDecision reftype.
Proof. solve_decision. Defined.

Definition reftype_name (ty : reftype) : string :=
  match ty with
  | replied_to => "replied_to"
  | quoted => "quoted"
  | retweeted => "retweeted"
  end.

Definition entry_items (e : reftype * string) : list (label * pyval) :=
  [(LStr "type", VStr (reftype_name e.1)); (LStr "id", VStr e.2)].

Definition reference_list (es : list (reftype * string)) : pyval :=
  VList ((fun e => VDict (entry_items e)) <$> es).

(** The id of the last entry of type [ty], the empty string when there is
    none. *)
Definition resolved (es : list (reftype * string)) (ty : reftype) : string :=
  foldl (fun acc e => if decide (e.1 = ty) then e.2 else acc) "" es.

Definition ref_record (es : list (reftype * string)) : pyval :=
  VDict [(LStr "replied_to", VStr (resolved es replied_to));
         (LStr "quoted", VStr (resolved es quoted));
         (LStr "retweeted", VStr (resolved es retweeted))].

(** The dictionary [to_dict] builds from the transposed table: types to
    ids, in the order of the list. *)
Definition overlay (es : list (reftype * string)) : list (label * pyval) :=
  foldl (fun d e => dict_set (LStr (reftype_name e.1)) (VStr e.2) d) [] es.

(** An instance of what is left to pandas, for running the definitions:
    every irregular input is rejected and every write succeeds. *)
Definition plain_pandas : Pandas :=
  mkPandas (fun _ => Raise ValueError) (fun _ => Raise ValueError)
           (fun _ => Raise ValueError) (fun _ => Raise ValueError)
           (fun _ _ _ => true).

(** A table of tweets with the given ids and authors. *)
Definition tweet_table (rows : list (string * string)) : DataFrame :=
  frame_of_records
    ((fun r => [(LStr "id", VStr r.1); (LStr "author_id", VStr r.2)]) <$> rows).





(** A batch of one tweet, without referenced tweets. *)
Definition example_batch : pyval :=
  VList [VDict [(LStr "id", VStr "1");
                (LStr "public_metrics", VDict [(LStr "retweet_count", VInt 3)])]].

(** The table of the original fields joined with the expanded metrics, as
    [parse_users] builds it (lines 88-90). *)
Definition base_plus_metrics (P : Pandas) (data : pyval) : py DataFrame :=
  df ← pd_DataFrame P data;
  metrics ← df_getitem df "public_metrics" ≫= apply_pd_Series P;
  pd_concat_axis1 P [df; metrics].

(** Two ways a computation can treat the lists of the store: leave every
    one of them as it is, or at most append to them. *)
Definition keeps_heap {A} (m : M A) : Prop := ∀ s, heap (m s).2 = heap s.

Definition extends (s s' : store) : Prop :=
  ∀ l frames, heap s !! l = Some frames →
              ∃ more, heap s' !! l = Some (frames ++ more).

Definition appends_only {A} (m : M A) : Prop := ∀ s, extends s (m s).2.

(** The names the functions of the file read without binding them, bound
    as a caller would have to bind them: the four library modules, and then
    [logger] as well. *)
Definition globals_with_imports : gmap string pyobj :=
  <["os" := OLib "os"]> (<["osp" := OLib "os.path"]>
    (<["json" := OLib "json"]> (<["time" := OLib "time"]> module_globals))).

Definition globals_with_logger : gmap string pyobj :=
  <["logger" := OLogger]> globals_with_imports.

(** A cache directory with two responses of one tweet each. *)
Definition example_tweet (id : string) : pyval :=
  VDict [(LStr "id", VStr id); (LStr "author_id", VStr "u");
         (LStr "public_metrics", VDict [(LStr "retweet_count", VInt 3)])].

Definition example_files : Files :=
  mkFiles (fun _ => Ok ["a.json"; "b.json"; "notes.txt"])
          (fun _ => Ok ())
          (fun path => Ok (VDict [(LStr "data", VList [example_tweet path.2])])).

Definition example_frame (id : string) : DataFrame :=
  mkDF [LInt 0] [LStr "id"; LStr "author_id"; LStr "public_metrics"]
       [[VStr id; VStr "u"; VDict [(LStr "retweet_count", VInt 3)]]].

Definition empty_store : store := mkStore ∅ 0 [] [] ∅.

(** A file that opens, loads and whose tweets are extracted. *)
Definition extracts (P : Pandas) (F : Files) (cache_dir file : string) : Prop :=
  fs_open F (cache_dir, file) = Ok () ∧
  ∃ res tweets, fs_json F (cache_dir, file) = Ok res ∧
                (getitem res "data" ≫= parse_data P) = Ok tweets.

(** The author of the last row of [rows] with the id [id]. *)
Definition last_author (rows : list (string * string)) (id : string) : option string :=
  foldl (fun acc r => if decide (r.1 = id) then Some r.2 else acc) None rows.

(** The cell of the ["referenced_tweets"] column for a tweet: its reference
    list, or NaN when the tweet has none. *)
Definition reference_cell (o : option (list (reftype * string))) : pyval :=
  match o with
  | Some es => reference_list es
  | None => VNaN
  end.

(** The table of the resolved references of a batch, one row per tweet. *)
Definition ref_table (ess : list (option (list (reftype * string)))) : DataFrame :=
  mkDF (range_index (List.length ess))
       [LStr "replied_to"; LStr "quoted"; LStr "retweeted"]
       ((fun o => [VStr (resolved (default [] o) replied_to);
                   VStr (resolved (default [] o) quoted);
                   VStr (resolved (default [] o) retweeted)]) <$> ess).

(** A batch of two tweets, the first of which quotes tweet "9". *)
Definition example_batch_with_references : pyval :=
  VList [VDict [(LStr "id", VStr "1");
                (LStr "public_metrics", VDict [(LStr "retweet_count", VInt 3)]);
                (LStr "referenced_tweets", reference_list [(quoted, "9")])];
         VDict [(LStr "id", VStr "2");
                (LStr "public_metrics", VDict [(LStr "retweet_count", VInt 4)])]].

(** * Properties *)

(** ** Ordered dictionaries *)

Lemma assoc_dict_set k k' v d :
  assoc k' (dict_set k v d) = if decide (k' = k) then Some v else assoc k' d.
Proof.
  induction d as [|[k0 v0] d IH]; simpl.
  - repeat case_decide; congruence.
  - destruct (decide (k = k0)) as [->|Hne]; simpl.
    + repeat case_decide; congruence.
    + rewrite IH. repeat case_decide; congruence.
Qed.

Lemma dict_set_keys k v d x :
  x ∈ (dict_set k v d).*1 → x = k ∨ x ∈ d.*1.
Proof.
  induction d as [|[k0 v0] d IH]; simpl.
  - rewrite list_elem_of_singleton. auto.
  - case_decide; simpl; rewrite !elem_of_cons; naive_solver.
Qed.

Lemma first_seen_elem seen l x : x ∈ first_seen seen l ↔ x ∈ l ∧ x ∉ seen.
Proof.
  revert seen. induction l as [|k l IH]; intros seen; simpl.
  - rewrite elem_of_nil. naive_solver.
  - case_decide as Hk.
    + rewrite IH, elem_of_cons. naive_solver.
    + rewrite !elem_of_cons, IH, elem_of_cons. 
      destruct (decide (x = k)); naive_solver.
Qed.

Lemma dict_keys_elem d x : x ∈ dict_keys d ↔ x ∈ d.*1.
Proof.
  unfold dict_keys. rewrite first_seen_elem. rewrite elem_of_nil. naive_solver.
Qed.

Lemma assoc_None {A} (k : label) (d : list (label * A)) :
  assoc k d = None ↔ k ∉ d.*1.
Proof.
  induction d as [|[k0 v0] d IH]; simpl.
  - rewrite elem_of_nil. naive_solver.
  - rewrite elem_of_cons. case_decide; naive_solver.
Qed.

(** ** Reference resolver *)

#[global] Instance reftype_name_inj : Inj (=) (=) reftype_name.
Proof. by intros [] []. Qed.

Lemma resolved_snoc es e ty :
  resolved (es ++ [e]) ty = if decide (e.1 = ty) then e.2 else resolved es ty.
Proof. unfold resolved. by rewrite foldl_app. Qed.

Lemma resolved_absent es ty : ty ∉ es.*1 → resolved es ty = "".
Proof.
  induction es as [|e es IH] using rev_ind; [done|].
  rewrite fmap_app, elem_of_app, resolved_snoc. simpl.
  rewrite list_elem_of_singleton. intros Hn.
  case_decide; [naive_solver|]. apply IH. naive_solver.
Qed.

Lemma resolved_last l1 ty id l2 :
  ty ∉ l2.*1 → resolved (l1 ++ (ty, id) :: l2) ty = id.
Proof.
  induction l2 as [|e l2 IH] using rev_ind; intros Hn.
  - rewrite resolved_snoc. simpl. by rewrite decide_True.
  - rewrite fmap_app, elem_of_app in Hn. simpl in Hn.
    rewrite list_elem_of_singleton in Hn.
    rewrite app_comm_cons, app_assoc, resolved_snoc.
    case_decide; [naive_solver|]. apply IH. naive_solver.
Qed.

Lemma overlay_lookup es ty :
  assoc (LStr (reftype_name ty)) (overlay es)
  = if decide (ty ∈ es.*1) then Some (VStr (resolved es ty)) else None.
Proof.
  induction es as [|e es IH] using rev_ind.
  - done.
  - unfold overlay. rewrite foldl_app. simpl. fold (overlay es).
    rewrite assoc_dict_set, resolved_snoc, IH, fmap_app. simpl.
    destruct (decide (e.1 = ty)) as [->|Hne].
    + rewrite decide_True by done. rewrite decide_True; [done|].
      rewrite elem_of_app, list_elem_of_singleton. auto.
    + rewrite decide_False by (intros [= Heq]; apply (inj _) in Heq; done).
      repeat case_decide; try done;
        rewrite elem_of_app, list_elem_of_singleton in *; naive_solver.
Qed.

Lemma overlay_keys es x :
  x ∈ (overlay es).*1 → ∃ ty, x = LStr (reftype_name ty).
Proof.
  induction es as [|e es IH] using rev_ind.
  - simpl. by intros ?%elem_of_nil.
  - unfold overlay. rewrite foldl_app. simpl. fold (overlay es).
    intros [->|?]%dict_set_keys; eauto.
Qed.

Lemma overlay_default es ty :
  default (VStr "") (assoc (LStr (reftype_name ty)) (overlay es))
  = VStr (resolved es ty).
Proof.
  rewrite overlay_lookup. case_decide; [done|].
  simpl. by rewrite resolved_absent.
Qed.

(** [a.update(r)] on a record with the three fields, when [r] has no other
    key: each field takes the value [r] has for it. *)
Lemma update_three (r : list (label * pyval)) ks v1 v2 v3 :
  Forall (fun k => ∃ ty, k = LStr (reftype_name ty)) ks →
  foldl (fun d k => match assoc k r with
                    | Some v => dict_set k v d
                    | None => d
                    end)
        [(LStr "replied_to", v1); (LStr "quoted", v2); (LStr "retweeted", v3)] ks
  = [(LStr "replied_to",
       if decide (LStr "replied_to" ∈ ks) then default v1 (assoc (LStr "replied_to") r) else v1);
     (LStr "quoted",
       if decide (LStr "quoted" ∈ ks) then default v2 (assoc (LStr "quoted") r) else v2);
     (LStr "retweeted",
       if decide (LStr "retweeted" ∈ ks) then default v3 (assoc (LStr "retweeted") r) else v3)].
Proof.
  intros Hks. revert v1 v2 v3.
  induction Hks as [|k ks [ty ->] _ IH]; intros v1 v2 v3.
  - done.
  - cbn [foldl].
    destruct (assoc (LStr (reftype_name ty)) r) as [v|] eqn:Hr;
      destruct ty; cbn [dict_set reftype_name]; simpl; rewrite IH; simpl in Hr; rewrite ?Hr; simpl.
    all: repeat (f_equal; []).
    all: repeat case_decide; rewrite ?elem_of_cons in *; simpl in *; rewrite ?Hr; simpl;
       try done; try naive_solver.
Qed.

Lemma first_seen_all_seen seen l : (∀ x, x ∈ l → x ∈ seen) → first_seen seen l = [].
Proof.
  induction l as [|k l IH]; intros Hl; [done|]. simpl.
  rewrite decide_True by (apply Hl; left).
  apply IH. intros x Hx. apply Hl. by right.
Qed.

Lemma as_records_entries es :
  as_records ((fun e => VDict (entry_items e)) <$> es) = Some (entry_items <$> es).
Proof.
  induction es as [|e es IH]; [done|].
  rewrite !fmap_cons. cbn [as_records]. by rewrite IH.
Qed.

Lemma entries_keys es x :
  x ∈ concat (dict_keys <$> (entry_items <$> es)) → x ∈ [LStr "type"; LStr "id"].
Proof.
  induction es as [|e es IH]; [by intros ?%elem_of_nil|].
  rewrite !fmap_cons. cbn [concat]. rewrite elem_of_app. intros [Hx|Hx]; auto.
Qed.

Lemma frame_of_entries e es :
  frame_of_records (entry_items <$> e :: es)
  = mkDF (range_index (S (length es))) [LStr "type"; LStr "id"]
         ((fun e => [VStr (reftype_name e.1); VStr e.2]) <$> e :: es).
Proof.
  unfold frame_of_records.
  assert (first_seen [] (concat (dict_keys <$> (entry_items <$> e :: es)))
          = [LStr "type"; LStr "id"]) as ->.
  { simpl. do 2 f_equal. apply first_seen_all_seen.
    intros x Hx%entries_keys. revert Hx. rewrite !elem_of_cons. naive_solver. }
  rewrite length_fmap. f_equal.
  rewrite <- list_fmap_compose. by apply list_fmap_ext.
Qed.

Lemma mapM_type_labels es :
  mapM (fun r => as_label (cell r 0))
       ((fun e => [VStr (reftype_name e.1); VStr e.2]) <$> es)
  = Ok ((fun e => LStr (reftype_name e.1)) <$> es).
Proof.
  induction es as [|e es IH]; [done|].
  rewrite !fmap_cons. simpl. rewrite IH. done.
Qed.

Lemma dict_of_zip_entries es :
  dict_of_zip ((fun e => LStr (reftype_name e.1)) <$> es)
              ((fun e => VStr e.2) <$> es)
  = overlay es.
Proof.
  unfold dict_of_zip, overlay.
  generalize (@nil (label * pyval)).
  induction es as [|e es IH]; intros d; [done|]. simpl. apply IH.
Qed.

Lemma update_default_overlay es :
  VDict (dict_update default_ref (overlay es)) = ref_record es.
Proof.
  unfold dict_update, default_ref.
  rewrite update_three.
  2:{ apply Forall_forall. intros x Hx%dict_keys_elem. by eapply overlay_keys. }
  unfold ref_record. do 2 f_equal; [|f_equal; [|f_equal]]; f_equal.
  all: rewrite <- overlay_default; simpl; case_decide as Hk; [done|].
  all: rewrite dict_keys_elem in Hk; apply assoc_None in Hk; by rewrite Hk.
Qed.

Lemma set_index_entries idx es :
  set_index "type"
    (mkDF idx [LStr "type"; LStr "id"]
          ((fun e => [VStr (reftype_name e.1); VStr e.2]) <$> es))
  = Ok (mkDF ((fun e => LStr (reftype_name e.1)) <$> es) [LStr "id"]
             ((fun e => [VStr e.2]) <$> es)).
Proof.
  unfold set_index. cbn [df_columns df_rows].
  change (column_pos (LStr "type") [LStr "type"; LStr "id"]) with (Some 0%nat).
  cbv beta iota. rewrite mapM_type_labels. cbn [mbind py_bind].
  do 2 f_equal. rewrite <- list_fmap_compose. by apply list_fmap_ext.
Qed.

Lemma to_dict_entries es :
  to_dict_records
    (reset_index_drop
       (transpose (mkDF ((fun e => LStr (reftype_name e.1)) <$> es) [LStr "id"]
                        ((fun e => [VStr e.2]) <$> es))))
  = [VDict (overlay es)].
Proof.
  unfold to_dict_records, reset_index_drop, transpose.
  cbn [df_columns df_rows df_index length seq fmap list_fmap].
  rewrite <- dict_of_zip_entries, <- list_fmap_compose. done.
Qed.

(** What [parse_ref] returns on a list of typed entries: every field holds
    the id of the last entry of its type. *)
Lemma parse_ref_reference_list P es :
  parse_ref P (reference_list es) = Ok (ref_record es).
Proof.
  destruct es as [|e es]; [done|].
  unfold parse_ref, parse_ref_body, reference_list.
  rewrite fmap_cons. cbn [pd_DataFrame].
  change (VDict (entry_items e) :: ((fun e => VDict (entry_items e)) <$> es))
    with ((fun e => VDict (entry_items e)) <$> e :: es).
  rewrite as_records_entries, frame_of_entries.
  cbn [mbind py_bind].
  rewrite set_index_entries. cbn [mbind py_bind].
  rewrite to_dict_entries. cbn [list_getitem lookup list_lookup mbind py_bind].
  by rewrite update_default_overlay.
Qed.

Lemma column_pos_None c cols : c ∉ cols → column_pos c cols = None.
Proof.
  induction cols as [|c' cols IH]; [done|].
  rewrite not_elem_of_cons. intros [Hne Hc]. simpl.
  rewrite decide_False by done. by rewrite IH.
Qed.

Lemma records_keys (recs : list (list (label * pyval))) x :
  x ∈ concat (dict_keys <$> recs) → Exists (fun d => x ∈ d.*1) recs.
Proof.
  induction recs as [|d recs IH]; [by intros ?%elem_of_nil|].
  rewrite fmap_cons. cbn [concat]. rewrite elem_of_app, dict_keys_elem.
  intros [Hx|Hx]; [by left|right; auto].
Qed.

Lemma as_records_VDict (recs : list (list (label * pyval))) :
  as_records (VDict <$> recs) = Some recs.
Proof.
  induction recs as [|d recs IH]; [done|].
  rewrite fmap_cons. cbn [as_records]. by rewrite IH.
Qed.

(** A list of records none of which has a ["type"] key has no such column,
    and the resolver falls back to the default. *)
Lemma parse_ref_untyped P (recs : list (list (label * pyval))) :
  Forall (fun d => LStr "type" ∉ d.*1) recs →
  parse_ref P (VList (VDict <$> recs)) = Ok (VDict default_ref).
Proof.
  intros Hrecs. destruct recs as [|d recs]; [done|].
  unfold parse_ref, parse_ref_body. rewrite fmap_cons. cbn [pd_DataFrame].
  change (VDict d :: (VDict <$> recs)) with (VDict <$> d :: recs).
  rewrite as_records_VDict. cbn [mbind py_bind].
  unfold set_index, frame_of_records. cbn [df_columns].
  rewrite column_pos_None; [done|].
  rewrite first_seen_elem. intros [Hx%records_keys _].
  apply Exists_exists in Hx as (d' & Hd' & Hty).
  rewrite Forall_forall in Hrecs. by apply (Hrecs d').
Qed.

(** C6: for a reference list with at most one entry per reference type,
    [parse_ref] returns a record with exactly the fields [replied_to],
    [quoted], [retweeted], in which the field of every type that occurs in
    the list holds that entry's id and every other field holds the empty
    string. *)
Theorem parse_ref_one_entry_per_type P (es : list (reftype * string)) :
  NoDup es.*1 →
  ∃ r, parse_ref P (reference_list es) = Ok (VDict r) ∧
       r.*1 = [LStr "replied_to"; LStr "quoted"; LStr "retweeted"] ∧
       (∀ ty id, (ty, id) ∈ es → assoc (LStr (reftype_name ty)) r = Some (VStr id)) ∧
       (∀ ty, ty ∉ es.*1 → assoc (LStr (reftype_name ty)) r = Some (VStr "")).
Proof.
  intros Hnd. eexists. split; [apply parse_ref_reference_list|].
  split; [done|]. split.
  - intros ty id Hin.
    apply list_elem_of_split in Hin as (l1 & l2 & ->).
    rewrite fmap_app, fmap_cons in Hnd.
    apply NoDup_app in Hnd as (_ & _ & Hnd). apply NoDup_cons in Hnd as [Hty _].
    simpl in Hty. by destruct ty; simpl; rewrite (resolved_last l1 _ id l2 Hty).
  - intros ty Hty. by destruct ty; simpl; rewrite (resolved_absent es _ Hty).
Qed.

Lemma parse_ref_one_entry_per_type_witness :
  NoDup [(quoted, "5"); (retweeted, "7")].*1 ∧
  ∃ r, parse_ref plain_pandas (reference_list [(quoted, "5"); (retweeted, "7")])
       = Ok (VDict r) ∧
       r.*1 = [LStr "replied_to"; LStr "quoted"; LStr "retweeted"] ∧
       (∀ ty id, (ty, id) ∈ [(quoted, "5"); (retweeted, "7")] →
                 assoc (LStr (reftype_name ty)) r = Some (VStr id)) ∧
       (∀ ty, ty ∉ [(quoted, "5"); (retweeted, "7")].*1 →
              assoc (LStr (reftype_name ty)) r = Some (VStr "")).
Proof.
  assert (NoDup [(quoted, "5"); (retweeted, "7")].*1) as H by compute_done.
  split; [exact H|].
  exact (parse_ref_one_entry_per_type plain_pandas [(quoted, "5"); (retweeted, "7")] H).
Defined.

(** C8: when a reference list has several entries of one type, the field
    of that type holds the id of the last of them (the later entry
    overwrites the earlier ones), and the record still has exactly its three
    fields. *)
Theorem parse_ref_last_entry_wins P (l1 l2 : list (reftype * string)) ty id :
  ty ∈ l1.*1 →
  ty ∉ l2.*1 →
  ∃ r, parse_ref P (reference_list (l1 ++ (ty, id) :: l2)) = Ok (VDict r) ∧
       r.*1 = [LStr "replied_to"; LStr "quoted"; LStr "retweeted"] ∧
       assoc (LStr (reftype_name ty)) r = Some (VStr id).
Proof.
  intros _ Hty. eexists. split; [apply parse_ref_reference_list|].
  split; [done|].
  by destruct ty; simpl; rewrite (resolved_last l1 _ id l2 Hty).
Qed.

Lemma parse_ref_last_entry_wins_witness :
  quoted ∈ [(quoted, "1"); (retweeted, "9")].*1 ∧
  (quoted ∉ (@nil (reftype * string)).*1) ∧
  ∃ r, parse_ref plain_pandas
         (reference_list ([(quoted, "1"); (retweeted, "9")] ++ (quoted, "2") :: []))
       = Ok (VDict r) ∧
       r.*1 = [LStr "replied_to"; LStr "quoted"; LStr "retweeted"] ∧
       assoc (LStr (reftype_name quoted)) r = Some (VStr "2").
Proof.
  assert (quoted ∈ [(quoted, "1"); (retweeted, "9")].*1) as H1 by compute_done.
  assert (quoted ∉ (@nil (reftype * string)).*1) as H2 by compute_done.
  split; [exact H1|]. split; [exact H2|].
  exact (parse_ref_last_entry_wins plain_pandas _ [] quoted "2" H1 H2).
Defined.

(** ** Edge builders *)

Lemma column_pos_Some c cols :
  c ∈ cols → ∃ j, column_pos c cols = Some j ∧ cols !! j = Some c.
Proof.
  induction cols as [|c' cols IH]; [by intros ?%elem_of_nil|].
  simpl. destruct (decide (c = c')) as [->|Hne]; [by exists 0%nat|].
  intros [?|Hc]%elem_of_cons; [done|].
  destruct (IH Hc) as (j & -> & Hj). by exists (S j).
Qed.

Lemma elem_of_delete_other {A} (l : list A) j x y :
  x ∈ l → l !! j = Some y → x ≠ y → x ∈ delete j l.
Proof.
  revert j. induction l as [|a l IH]; intros j; [by intros ?%elem_of_nil|].
  destruct j as [|j]; simpl.
  - intros [->|?]%elem_of_cons [= ->] ?; done.
  - intros [->|?]%elem_of_cons ? ?; [left|right; eauto].
Qed.

Lemma mapM_as_label (rows : list (list pyval)) j :
  Forall (fun r => ∃ k, classify_key (cell r j) = Hashable k) rows →
  ∃ idx, mapM (fun r => as_label (cell r j)) rows = Ok idx.
Proof.
  induction 1 as [|r rows [k Hk] _ [idx IH]]; [by exists []|].
  exists (k :: idx). cbn [mapM].
  assert (as_label (cell r j) = Ok k) as -> by (unfold as_label; by rewrite Hk).
  cbn [mbind py_bind]. by rewrite IH.
Qed.

(** The id index of a table can be built when the table has an [id] and an
    [author_id] column and its ids are hashable data. *)
Lemma author_by_id_defined df :
  LStr "id" ∈ df_columns df →
  LStr "author_id" ∈ df_columns df →
  (∀ j, Forall (fun r => ∃ k, classify_key (cell r j) = Hashable k) (df_rows df)) →
  ∃ d, author_by_id df = Ok d.
Proof.
  intros (j & Hj & Hcj)%column_pos_Some Hauthor Hcells.
  unfold author_by_id, set_index. rewrite Hj.
  destruct (mapM_as_label (df_rows df) j (Hcells j)) as [idx ->].
  cbn [mbind py_bind]. unfold df_getitem. cbn [df_columns].
  destruct (column_pos_Some (LStr "author_id") (delete j (df_columns df)))
    as (i & -> & _); [by eapply elem_of_delete_other|].
  by eexists.
Qed.

(** The ways a lookup in an index fails: the key is not there, or it
    cannot be hashed. A table with the two columns and no rows has the empty
    index, in which every lookup fails. *)
Lemma dict_getitem_raises (d : gmap label pyval) (k : pyval) :
  raises (dict_getitem d k) ↔
  match classify_key k with
  | Hashable l => d !! l = None
  | _ => True
  end.
Proof.
  unfold raises, dict_getitem.
  destruct (classify_key k) as [l| |].
  - destruct (d !! l); split; intros H; try done.
    + by destruct H.
    + by exists KeyError.
  - split; [done|]. by exists TypeError.
  - split; [done|]. by exists KeyError.
Qed.

Lemma author_by_id_no_rows :
  author_by_id (mkDF [] [LStr "id"; LStr "author_id"] []) = Ok ∅.
Proof. reflexivity. Qed.

Lemma utils_unbound member : utils_RType_value module_globals member = Raise NameError.
Proof. reflexivity. Qed.

Lemma RType_value_MENTION G :
  G !! "RType" = Some RType → RType_value G "MENTION" = Ok (VInt 4).
Proof. intros H. unfold RType_value, lookup_global. by rewrite H. Qed.

(** With the namespace of the file, neither builder emits an edge, whatever
    the tables hold: the name [utils] is unbound, and the [NameError] it
    raises is taken by the same bare [except] as a failed lookup. *)
Lemma parse_retweets_module_globals tweet_id author_id target
    tweet_df referenced_df tweet_dict ref_dict :
  author_by_id tweet_df = Ok tweet_dict →
  author_by_id referenced_df = Ok ref_dict →
  parse_retweets module_globals tweet_id author_id target tweet_df referenced_df
  = Ok (VDict []).
Proof.
  intros Ht Hr. unfold parse_retweets. rewrite Ht, Hr. cbn [mbind py_bind].
  rewrite !utils_unbound.
  destruct (dict_getitem ref_dict target), (dict_getitem tweet_dict target); done.
Qed.

Lemma parse_quotes_module_globals tweet_id author_id target
    tweet_df referenced_df tweet_dict ref_dict :
  author_by_id tweet_df = Ok tweet_dict →
  author_by_id referenced_df = Ok ref_dict →
  parse_quotes module_globals tweet_id author_id target tweet_df referenced_df
  = Ok (VDict []).
Proof.
  intros Ht Hr. unfold parse_quotes. rewrite Ht, Hr. cbn [mbind py_bind].
  rewrite !utils_unbound.
  destruct (dict_getitem ref_dict target), (dict_getitem tweet_dict target); done.
Qed.

(** In a namespace where [utils.RType] does resolve, an id found in the
    referenced-tweet index gives the edge, with the author that index has
    for it, whether or not the main table has the id as well. *)
Lemma parse_retweets_side_table G tweet_id author_id target
    tweet_df referenced_df tweet_dict ref_dict a v :
  author_by_id tweet_df = Ok tweet_dict →
  author_by_id referenced_df = Ok ref_dict →
  utils_RType_value G "RETWEET" = Ok v →
  dict_getitem ref_dict target = Ok a →
  parse_retweets G tweet_id author_id target tweet_df referenced_df
  = Ok (edge a author_id tweet_id v).
Proof.
  intros Ht Hr Hv Ha. unfold parse_retweets.
  rewrite Ht, Hr. cbn [mbind py_bind]. by rewrite Ha, Hv.
Qed.

Lemma parse_quotes_side_table G tweet_id author_id target
    tweet_df referenced_df tweet_dict ref_dict a v :
  author_by_id tweet_df = Ok tweet_dict →
  author_by_id referenced_df = Ok ref_dict →
  utils_RType_value G "QUOTE" = Ok v →
  dict_getitem ref_dict target = Ok a →
  parse_quotes G tweet_id author_id target tweet_df referenced_df
  = Ok (edge a author_id tweet_id v).
Proof.
  intros Ht Hr Hv Ha. unfold parse_quotes.
  rewrite Ht, Hr. cbn [mbind py_bind]. by rewrite Ha, Hv.
Qed.

(** C1, evaluated on the file as it is: the target id "t0" is a key of the
    referenced-tweet index, with author "u0", and still [parse_retweets] and
    [parse_quotes] return the empty record instead of the edge from "u0". *)
Theorem retweet_quote_hit_returns_empty :
  (author_by_id (tweet_table [("t0", "u0")]) ≫= fun d => dict_getitem d (VStr "t0"))
    = Ok (VStr "u0") ∧
  parse_retweets module_globals (VStr "t1") (VStr "u1") (VStr "t0")
    (tweet_table [("t1", "u1")]) (tweet_table [("t0", "u0")]) = Ok (VDict []) ∧
  parse_quotes module_globals (VStr "t1") (VStr "u1") (VStr "t0")
    (tweet_table [("t1", "u1")]) (tweet_table [("t0", "u0")]) = Ok (VDict []).
Proof. by vm_compute. Qed.






(** ** Tweet extractor *)

(** When the batch has no ["referenced_tweets"] column, [parse_data]
    returns the table as it was built from the records: the metrics have
    been expanded, but they are joined to the table only inside the [try],
    after the failing column access. *)
Lemma parse_data_without_references P data df metrics :
  pd_DataFrame P data = Ok df →
  (df_getitem df "public_metrics" ≫= apply_pd_Series P) = Ok metrics →
  LStr "referenced_tweets" ∉ df_columns df →
  parse_data P data = Ok df.
Proof.
  intros Hdf Hm Href. unfold parse_data.
  rewrite Hdf. cbn [mbind py_bind]. rewrite Hm. cbn [mbind py_bind].
  unfold df_getitem. by rewrite column_pos_None.
Qed.

(** C5, evaluated: on a batch without referenced tweets [parse_data]
    returns the original fields only; the column [retweet_count] of the
    expanded metrics, which the joined table has, is missing. *)
Theorem parse_data_without_references_omits_metrics P :
  parse_data P example_batch
  = Ok (mkDF [LInt 0] [LStr "id"; LStr "public_metrics"]
             [[VStr "1"; VDict [(LStr "retweet_count", VInt 3)]]]) ∧
  base_plus_metrics P example_batch
  = Ok (mkDF [LInt 0] [LStr "id"; LStr "public_metrics"; LStr "retweet_count"]
             [[VStr "1"; VDict [(LStr "retweet_count", VInt 3)]; VInt 3]]) ∧
  parse_data P example_batch ≠ base_plus_metrics P example_batch.
Proof. by vm_compute. Qed.

(** ** Batch aggregator *)

Lemma extends_refl s : extends s s.
Proof. intros l frames H. exists []. by rewrite app_nil_r. Qed.

Lemma extends_trans s1 s2 s3 : extends s1 s2 → extends s2 s3 → extends s1 s3.
Proof.
  intros H12 H23 l frames H.
  destruct (H12 _ _ H) as [m1 H1]. destruct (H23 _ _ H1) as [m2 H2].
  exists (m1 ++ m2). by rewrite app_assoc.
Qed.

Lemma keeps_appends {A} (m : M A) : keeps_heap m → appends_only m.
Proof. intros H s l frames Hl. exists []. by rewrite app_nil_r, H. Qed.

Section Frames.
Context {A B : Type}.

Lemma keeps_ret (a : A) : keeps_heap (mret a).
Proof. done. Qed.

Lemma keeps_lift (r : py A) : keeps_heap (lift r).
Proof. done. Qed.

Lemma keeps_bind (m : M A) (f : A → M B) :
  keeps_heap m → (∀ a, keeps_heap (f a)) → keeps_heap (m ≫= f).
Proof.
  intros Hm Hf s. unfold mbind, M_bind.
  specialize (Hm s). destruct (m s) as [[a|e] s']; simpl in *; [|done].
  by rewrite Hf.
Qed.

Lemma keeps_catch (m : M A) (h : exn → M A) :
  keeps_heap m → (∀ e, keeps_heap (h e)) → keeps_heap (catch m h).
Proof.
  intros Hm Hh s. unfold catch.
  specialize (Hm s). destruct (m s) as [[a|e] s']; simpl in *; [done|].
  by rewrite Hh.
Qed.

Lemma keeps_attempt (m : M A) : keeps_heap m → keeps_heap (attempt m).
Proof. intros Hm s. apply Hm. Qed.

Lemma appends_bind (m : M A) (f : A → M B) :
  appends_only m → (∀ a, appends_only (f a)) → appends_only (m ≫= f).
Proof.
  intros Hm Hf s. unfold mbind, M_bind.
  specialize (Hm s). destruct (m s) as [[a|e] s']; simpl in *; [|done].
  eapply extends_trans; [done|apply Hf].
Qed.

Lemma appends_catch (m : M A) (h : exn → M A) :
  appends_only m → (∀ e, appends_only (h e)) → appends_only (catch m h).
Proof.
  intros Hm Hh s. unfold catch.
  specialize (Hm s). destruct (m s) as [[a|e] s']; simpl in *; [done|].
  eapply extends_trans; [done|apply Hh].
Qed.

Lemma appends_catch_KeyError (m h : M A) :
  appends_only m → appends_only h → appends_only (catch_KeyError m h).
Proof.
  intros Hm Hh s. unfold catch_KeyError.
  specialize (Hm s). destruct (m s) as [[a|[]] s']; simpl in *; try done.
  eapply extends_trans; [done|apply Hh].
Qed.
End Frames.

Lemma keeps_deref l : keeps_heap (deref l).
Proof. intros s. unfold deref. by destruct (heap s !! l). Qed.

Lemma keeps_method logger : keeps_heap (method logger).
Proof. by destruct logger. Qed.

Lemma keeps_emit lvl msg : keeps_heap (emit lvl msg).
Proof. done. Qed.

Lemma keeps_log_to logger lvl msg : keeps_heap (log_to logger lvl msg).
Proof. apply keeps_bind; [apply keeps_method|intros; apply keeps_emit]. Qed.

Lemma keeps_library G name lib : keeps_heap (library G name lib).
Proof.
  apply keeps_bind; [apply keeps_lift|].
  intros []; try apply keeps_lift. case_decide; [apply keeps_ret|apply keeps_lift].
Qed.

Lemma keeps_to_pickle P df path protocol : keeps_heap (to_pickle P df path protocol).
Proof. intros s. unfold to_pickle. by destruct (pickle_ok _ _ _ _). Qed.

Lemma keeps_append_not_loaded path : keeps_heap (append_not_loaded path).
Proof. done. Qed.

Lemma appends_append l df : appends_only (append l df).
Proof.
  intros s l' frames Hl'. unfold append.
  destruct (heap s !! l) as [fs|] eqn:Hl; simpl.
  - destruct (decide (l = l')) as [->|Hne].
    + rewrite lookup_insert_eq. exists [df]. congruence.
    + rewrite lookup_insert_ne by done. exists []. by rewrite app_nil_r.
  - exists []. by rewrite app_nil_r.
Qed.

Create HintDb frames.

#[local] Hint Resolve keeps_ret keeps_lift keeps_deref keeps_method keeps_emit
  keeps_log_to keeps_library keeps_to_pickle keeps_append_not_loaded
  keeps_attempt : frames.
#[local] Hint Extern 2 (keeps_heap (_ ≫= _)) => apply keeps_bind; [|intros ?] : frames.
#[local] Hint Extern 2 (keeps_heap (catch _ _)) => apply keeps_catch; [|intros ?] : frames.
#[local] Hint Extern 2 (appends_only (_ ≫= _)) => apply appends_bind; [|intros ?] : frames.
#[local] Hint Extern 2 (appends_only (catch _ _)) => apply appends_catch; [|intros ?] : frames.
#[local] Hint Extern 2 (appends_only (catch_KeyError _ _)) =>
  apply appends_catch_KeyError : frames.
#[local] Hint Resolve appends_append : frames.
#[local] Hint Extern 5 (appends_only _) => apply keeps_appends : frames.

Lemma keeps_concat_and_pickle G P df_list df_name path protocol :
  keeps_heap (concat_and_pickle G P df_list df_name path protocol).
Proof.
  unfold concat_and_pickle.
  apply keeps_bind; [auto 10 with frames|].
  intros [df|e]; auto 20 with frames.
Qed.

(** C10: [concat_and_pickle] does not change the list it is given: after
    the call, whether the tables were pickled, could not be concatenated or
    could not be written, the list behind [df_list] (and every other list of
    the store) holds the same tables in the same order. Nothing in it empties
    an accumulator. *)
Theorem concat_and_pickle_keeps_list G P df_list df_name path protocol s :
  heap (concat_and_pickle G P df_list df_name path protocol s).2 !! df_list
    = heap s !! df_list ∧
  heap (concat_and_pickle G P df_list df_name path protocol s).2 = heap s.
Proof.
  pose proof (keeps_concat_and_pickle G P df_list df_name path protocol s) as H.
  by rewrite H.
Qed.

Lemma logger_unbound : lookup_global module_globals "logger" = Raise NameError.
Proof. reflexivity. Qed.

(** C4, evaluated on the file as it is: [concat_and_pickle] reads [logger]
    from the module namespace, which does not bind it, so every call ends in
    [NameError] and logs nothing, whether the concatenation fails, the write
    fails or both succeed. The flush is outside the [try] of the loop, so
    the run stops there: with the library modules bound, the run over the
    two example files raises at the first flush, after the tweets were
    written and before the other three accumulators were handled. *)
Theorem concat_and_pickle_raises_NameError P df_list df_name path protocol s :
  ((concat_and_pickle module_globals P df_list df_name path protocol s).1
     = Raise NameError ∧
   log (concat_and_pickle module_globals P df_list df_name path protocol s).2
     = log s) ∧
  ((read_aggregate_pickle globals_with_imports plain_pandas example_files
      "cache" "out" OLogger 1 4 false empty_store).1 = Raise NameError ∧
   dom (disk (read_aggregate_pickle globals_with_imports plain_pandas example_files
                "cache" "out" OLogger 1 4 false empty_store).2)
     = {[ ("out", "tweets_1.pickle") ]}).
Proof.
  split; [|by vm_compute].
  unfold concat_and_pickle, attempt, catch, deref, to_pickle, log_to,
    mbind, M_bind, lift.
  rewrite !logger_unbound.
  destruct (heap s !! df_list) as [frames|]; simpl; [|done].
  destruct (pd_concat P frames) as [df|e]; simpl; [|done].
  by destruct (pickle_ok _ _ _ _).
Qed.

(** With [logger] bound to a logger the helper does what its body says: a
    failed concatenation is logged as a warning and the call returns; a
    failed write is logged as a warning, writes nothing and the call
    returns. *)
Lemma concat_and_pickle_with_logger G P df_list df_name path protocol s frames :
  G !! "logger" = Some OLogger →
  heap s !! df_list = Some frames →
  (concat_and_pickle G P df_list df_name path protocol s).1 = Ok () ∧
  match pd_concat P frames with
  | Raise _ =>
      (concat_and_pickle G P df_list df_name path protocol s).2
      = mkStore (heap s) (next s) (not_loaded s)
                (log s ++ [(WARNING, CannotConcat df_name (length frames))]) (disk s)
  | Ok df =>
      if pickle_ok P path (replace_nulls df) protocol
      then (concat_and_pickle G P df_list df_name path protocol s).2
           = mkStore (heap s) (next s) (not_loaded s)
                     (log s ++ [(INFO, Saved df_name path)])
                     (<[path := replace_nulls df]> (disk s))
      else (concat_and_pickle G P df_list df_name path protocol s).2
           = mkStore (heap s) (next s) (not_loaded s)
                     (log s ++ [(WARNING, CannotSave df_name path)]) (disk s)
  end.
Proof.
  intros HG Hl.
  unfold concat_and_pickle, attempt, catch, deref, to_pickle, log_to,
    mbind, M_bind, lift, lookup_global.
  rewrite HG, Hl. simpl.
  destruct (pd_concat P frames) as [df|e]; simpl.
  - by destruct (pickle_ok _ _ _ _).
  - by rewrite Hl.
Qed.

Lemma keeps_flush G P save_dir logger protocol A i :
  keeps_heap (flush G P save_dir logger protocol A i).
Proof.
  unfold flush.
  apply keeps_bind; [apply keeps_method|intros _].
  apply keeps_bind; [apply keeps_library|intros _].
  apply keeps_bind; [apply keeps_emit|intros _].
  do 3 (apply keeps_bind; [apply keeps_library|intros _];
        apply keeps_bind; [apply keeps_concat_and_pickle|intros _]).
  apply keeps_bind; [apply keeps_library|intros _].
  apply keeps_concat_and_pickle.
Qed.

Lemma appends_process_file G P F cache_dir logger A file :
  appends_only (process_file G P F cache_dir logger A file).
Proof. unfold process_file, call_without_logger. auto 30 with frames. Qed.

Lemma appends_loop_body G P F cache_dir save_dir logger agg protocol A n i file :
  appends_only (loop_body G P F cache_dir save_dir logger agg protocol A n i file).
Proof.
  unfold loop_body.
  apply appends_bind; [apply appends_process_file|intros _].
  apply appends_bind; [auto with frames|intros []].
  - apply keeps_appends, keeps_flush.
  - auto with frames.
Qed.

Lemma library_bound G name lib s :
  G !! name = Some (OLib lib) → library G name lib s = (Ok (), s).
Proof.
  intros H. unfold library, mbind, M_bind, lift, lookup_global.
  rewrite H. by rewrite decide_True.
Qed.

Lemma M_bind_unfold {A B} (m : M A) (f : A → M B) s :
  (m ≫= f) s = match m s with
               | (Ok a, s') => f a s'
               | (Raise e, s') => (Raise e, s')
               end.
Proof. done. Qed.

(** Such a file adds one table to the tweets accumulator; the call of
    [parse_users] that follows fails, which is logged, and the other three
    accumulators get nothing. *)
Lemma process_file_extracts G P F cache_dir A file s frames :
  G !! "osp" = Some (OLib "os.path") →
  G !! "json" = Some (OLib "json") →
  extracts P F cache_dir file →
  heap s !! all_tweets A = Some frames →
  ∃ tweets,
    process_file G P F cache_dir OLogger A file s
    = (Ok (),
       mkStore (<[all_tweets A := frames ++ [tweets]]> (heap s)) (next s)
               (not_loaded s)
               (log s ++ [(WARNING, CannotParse file TypeError)]) (disk s)).
Proof.
  intros Hosp Hjson (Hopen & res & tweets & Hres & Htw) Hl. exists tweets.
  unfold process_file, catch.
  rewrite M_bind_unfold, (library_bound _ _ _ _ Hosp).
  rewrite M_bind_unfold. unfold lift at 1. rewrite Hopen.
  rewrite M_bind_unfold, (library_bound _ _ _ _ Hjson).
  rewrite M_bind_unfold. unfold lift at 1. rewrite Hres.
  rewrite M_bind_unfold. unfold lift at 1. rewrite Htw.
  rewrite M_bind_unfold. unfold append at 1. rewrite Hl.
  reflexivity.
Qed.

Lemma no_trigger_before_interval agg (n j : nat) :
  0 < agg → Z.of_nat j < agg → (S j < n)%nat →
  flush_trigger agg j n = Ok false.
Proof.
  intros Hagg Hj Hn. unfold flush_trigger.
  rewrite decide_False by lia. f_equal.
  rewrite orb_false_iff. split; apply bool_decide_eq_false.
  - rewrite Z.mod_small by lia. lia.
  - lia.
Qed.

Lemma loop_body_no_trigger G P F cache_dir save_dir logger agg protocol A n i file s s1 :
  process_file G P F cache_dir logger A file s = (Ok (), s1) →
  flush_trigger agg i n = Ok false →
  loop_body G P F cache_dir save_dir logger agg protocol A n i file s = (Ok (), s1).
Proof.
  intros Hstep Htrig. unfold loop_body.
  rewrite M_bind_unfold, Hstep, M_bind_unfold. unfold lift. by rewrite Htrig.
Qed.

Lemma for_files_extract G P F cache_dir save_dir agg protocol A n files :
  G !! "osp" = Some (OLib "os.path") →
  G !! "json" = Some (OLib "json") →
  0 < agg →
  Forall (extracts P F cache_dir) files →
  ∀ i s frames,
    (Z.of_nat (i + List.length files) ≤ agg)%Z →
    (i + List.length files < n)%nat →
    heap s !! all_tweets A = Some frames →
    (for_files G P F cache_dir save_dir OLogger agg protocol A n i files s).1
      = Ok () ∧
    ∃ new,
      heap (for_files G P F cache_dir save_dir OLogger agg protocol A n i files s).2
        !! all_tweets A = Some (frames ++ new) ∧
      List.length new = List.length files.
Proof.
  intros Hosp Hjson Hagg Hfiles.
  induction Hfiles as [|file files Hfile _ IH]; intros i s frames Hi Hn Hl.
  - split; [done|]. exists []. by rewrite app_nil_r.
  - cbn [List.length] in Hi, Hn.
    destruct (process_file_extracts G P F cache_dir A file s frames
                Hosp Hjson Hfile Hl) as (tweets & Hstep).
    cbn [for_files].
    rewrite M_bind_unfold.
    rewrite (loop_body_no_trigger _ _ _ _ _ _ _ _ _ _ _ _ _ _ Hstep)
      by (apply no_trigger_before_interval; lia).
    match goal with |- context [for_files _ _ _ _ _ _ _ _ _ _ _ _ ?s1] =>
      destruct (IH (S i) s1 (frames ++ [tweets])) as (Hr & new & Hnew & Hlen)
    end.
    + lia.
    + lia.
    + apply lookup_insert_eq.
    + split; [done|]. exists (tweets :: new).
      rewrite Hnew, <- app_assoc. simpl. by rewrite Hlen.
Qed.

(** With the names the file leaves unbound bound as a caller would have
    to bind them, the run over the two example files with an interval of 1
    flushes at position 1, which is both an interval boundary and the final
    file; the flush writes the tweets, and afterwards the tweets accumulator
    still holds both tables. The other three accumulators are empty although
    two files were processed. *)
Lemma accumulators_not_reset_after_flush :
  (read_aggregate_pickle globals_with_logger plain_pandas example_files
     "cache" "out" OLogger 1 4 false empty_store).1 = Ok () ∧
  flush_trigger 1 1 2 = Ok true ∧
  dom (disk (read_aggregate_pickle globals_with_logger plain_pandas example_files
               "cache" "out" OLogger 1 4 false empty_store).2)
    = {[ ("out", "tweets_1.pickle") ]} ∧
  heap (read_aggregate_pickle globals_with_logger plain_pandas example_files
          "cache" "out" OLogger 1 4 false empty_store).2
    = {[ 0%nat := [example_frame "a.json"; example_frame "b.json"];
         1%nat := []; 2%nat := []; 3%nat := [] ]}.
Proof. by vm_compute. Qed.

(** A flush leaves every accumulator as it was, and nothing in the loop
    resets one: through an iteration, with or without a flush, each
    accumulator keeps the tables it had and at most gets more. In a
    namespace that binds [osp] and [json], [agg_interval] files that load
    and whose tweets are extracted, none of them at a flush trigger, leave
    [agg_interval] tables in the tweets accumulator, empty before. *)
Theorem flush_keeps_accumulators G P F cache_dir save_dir logger
    agg_interval pickle_protocol A :
  (∀ i s, heap (flush G P save_dir logger pickle_protocol A i s).2 = heap s) ∧
  (∀ n i file s l frames,
     heap s !! l = Some frames →
     ∃ more,
       heap (loop_body G P F cache_dir save_dir logger agg_interval
               pickle_protocol A n i file s).2 !! l = Some (frames ++ more)) ∧
  (∀ n files s,
     G !! "osp" = Some (OLib "os.path") →
     G !! "json" = Some (OLib "json") →
     logger = OLogger →
     0 < agg_interval →
     Z.of_nat (List.length files) = agg_interval →
     (List.length files < n)%nat →
     Forall (extracts P F cache_dir) files →
     heap s !! all_tweets A = Some [] →
     (for_files G P F cache_dir save_dir logger agg_interval pickle_protocol
        A n 0 files s).1 = Ok () ∧
     ∃ new,
       heap (for_files G P F cache_dir save_dir logger agg_interval
               pickle_protocol A n 0 files s).2 !! all_tweets A = Some new ∧
       Z.of_nat (List.length new) = agg_interval ∧
       new ≠ []).
Proof.
  split; [|split].
  - intros i. apply keeps_flush.
  - intros n i file s. apply appends_loop_body.
  - intros n files s Hosp Hjson -> Hagg Hlen Hn Hfiles Hs.
    destruct (for_files_extract G P F cache_dir save_dir agg_interval
                pickle_protocol A n files Hosp Hjson Hagg Hfiles 0%nat s [])
      as (Hr & new & Hnew & Hnl); [simpl; lia|simpl; lia|done|].
    split; [done|]. exists new. split; [done|]. split; [lia|].
    intros ->. simpl in Hnl. lia.
Qed.

Lemma flush_keeps_accumulators_witness :
  globals_with_logger !! "osp" = Some (OLib "os.path") ∧
  globals_with_logger !! "json" = Some (OLib "json") ∧
  Forall (extracts plain_pandas example_files "cache") ["a.json"; "b.json"] ∧
  ∃ new,
    heap (for_files globals_with_logger plain_pandas example_files "cache" "out"
            OLogger 2 4 (mkAccs 0 1 2 3) 3 0 ["a.json"; "b.json"]
            (mkStore {[ 0%nat := []; 1%nat := []; 2%nat := []; 3%nat := [] ]}
                     4 [] [] ∅)).2 !! 0%nat = Some new ∧
    Z.of_nat (List.length new) = 2 ∧ new ≠ [].
Proof.
  assert (Forall (extracts plain_pandas example_files "cache") ["a.json"; "b.json"])
    as Hfiles.
  { repeat constructor; by eexists _, _. }
  split; [reflexivity|]. split; [reflexivity|]. split; [exact Hfiles|].
  destruct (flush_keeps_accumulators globals_with_logger plain_pandas
              example_files "cache" "out" OLogger 2 4 (mkAccs 0 1 2 3))
    as (_ & _ & Hrun).
  destruct (Hrun 3%nat ["a.json"; "b.json"]
              (mkStore {[ 0%nat := []; 1%nat := []; 2%nat := []; 3%nat := [] ]}
                       4 [] [] ∅))
    as (_ & Hnew); try reflexivity; try done.
  simpl. lia.
Defined.

(** * Further properties *)

(** ** Edge builders *)

(** X1: [parse_replies] looks nothing up: whatever the three values are,
    also when [in_reply_to_user_id] is empty or [None], it returns the one
    edge from [in_reply_to_user_id] to [author_id] with [rtype] REPLY = 3. *)
Theorem parse_replies_edge G tweet_id author_id in_reply_to_user_id :
  G !! "RType" = Some RType →
  parse_replies G tweet_id author_id in_reply_to_user_id
  = Ok (VDict [(LStr "src_user_id", in_reply_to_user_id);
               (LStr "tar_user_id", author_id);
               (LStr "tweet_id", tweet_id); (LStr "rtype", VInt 3)]).
Proof. intros H. unfold parse_replies, RType_value, lookup_global. by rewrite H. Qed.

Lemma parse_replies_edge_witness :
  module_globals !! "RType" = Some RType ∧
  parse_replies module_globals (VStr "t1") (VStr "u1") (VStr "")
  = Ok (VDict [(LStr "src_user_id", VStr ""); (LStr "tar_user_id", VStr "u1");
               (LStr "tweet_id", VStr "t1"); (LStr "rtype", VInt 3)]).
Proof.
  assert (module_globals !! "RType" = Some RType) as H by reflexivity.
  split; [exact H|].
  exact (parse_replies_edge module_globals (VStr "t1") (VStr "u1") (VStr "") H).
Defined.

(** X2: [parse_mentions] needs a dictionary: for any other value of
    [entities], such as the NaN of a tweet without entities, the call of
    [keys] raises [AttributeError]. *)
Theorem parse_mentions_not_a_dict G tweet_id author_id entities :
  (∀ d, entities ≠ VDict d) →
  parse_mentions G tweet_id author_id entities = Raise AttributeError.
Proof. intros H. destruct entities; try done. by destruct (H d). Qed.

Lemma parse_mentions_not_a_dict_witness :
  (∀ d, VNaN ≠ VDict d) ∧
  parse_mentions module_globals (VStr "t1") (VStr "u1") VNaN = Raise AttributeError.
Proof.
  assert (∀ d, VNaN ≠ VDict d) as H by (intros d; discriminate).
  split; [exact H|].
  exact (parse_mentions_not_a_dict module_globals (VStr "t1") (VStr "u1") VNaN H).
Defined.

(** X3: a mention whose ["id"] cannot be read makes [parse_mentions]
    raise that error ([KeyError] for a mention without the key, [TypeError]
    for one that is not a dictionary); the edges built for the mentions
    before it are not returned. *)
Theorem parse_mentions_bad_mention G tweet_id author_id
    (d : list (label * pyval)) ms1 ids1 m ms2 e :
  G !! "RType" = Some RType →
  assoc (LStr "mentions") d = Some (VList (ms1 ++ m :: ms2)) →
  Forall2 (fun m id => getitem m "id" = Ok id) ms1 ids1 →
  getitem m "id" = Raise e →
  parse_mentions G tweet_id author_id (VDict d) = Raise e.
Proof.
  intros HG Hms Hids Hm. unfold parse_mentions, keys. cbn [mbind py_bind].
  rewrite decide_True.
  2:{ rewrite dict_keys_elem.
      destruct (decide (LStr "mentions" ∈ d.*1)) as [|Hn]; [done|].
      apply assoc_None in Hn. congruence. }
  assert (getitem (VDict d) (LStr "mentions") = Ok (VList (ms1 ++ m :: ms2))) as ->
    by (unfold getitem; by rewrite Hms).
  cbn [mbind py_bind iterate].
  rewrite (RType_value_MENTION G HG). cbn [mbind py_bind]. clear Hms.
  induction Hids as [|m1 id ms1 ids1 Hm1 _ IH]; cbn [app mapM].
  - by rewrite Hm.
  - rewrite Hm1. cbn [mbind py_bind]. by rewrite IH.
Qed.

Lemma parse_mentions_bad_mention_witness :
  module_globals !! "RType" = Some RType ∧
  parse_mentions module_globals (VStr "t1") (VStr "u1")
    (VDict [(LStr "mentions",
             VList ([VDict [(LStr "id", VStr "a")]]
                    ++ VDict [(LStr "username", VStr "b")] :: []))])
  = Raise KeyError.
Proof.
  assert (module_globals !! "RType" = Some RType) as H by reflexivity.
  split; [exact H|].
  apply (parse_mentions_bad_mention module_globals (VStr "t1") (VStr "u1")
           _ [VDict [(LStr "id", VStr "a")]] [VStr "a"]
           (VDict [(LStr "username", VStr "b")]) [] KeyError H).
  - reflexivity.
  - repeat constructor.
  - reflexivity.
Defined.

(** X4: the only exceptions that leave [parse_retweets] and
    [parse_quotes] come from building the two id indexes, before the
    [try]: the builders raise exactly when one of the tables cannot be
    indexed. *)
Theorem retweet_quote_raise_iff G tweet_id author_id target tweet_df referenced_df :
  (raises (parse_retweets G tweet_id author_id target tweet_df referenced_df) ↔
   raises (author_by_id tweet_df) ∨ raises (author_by_id referenced_df)) ∧
  (raises (parse_quotes G tweet_id author_id target tweet_df referenced_df) ↔
   raises (author_by_id tweet_df) ∨ raises (author_by_id referenced_df)).
Proof.
  unfold parse_retweets, parse_quotes, raises.
  destruct (author_by_id tweet_df) as [td|e1], (author_by_id referenced_df) as [rd|e2];
    cbn [mbind py_bind].
  2-4: split; split; eauto.
  destruct (dict_getitem rd target), (dict_getitem td target),
    (utils_RType_value G "RETWEET"), (utils_RType_value G "QUOTE"); simpl.
  all: split; split; try (by intros [? ?]); by intros [[? ?]|[? ?]].
Qed.

Lemma tweet_rows_keys (rows : list (string * string)) x :
  x ∈ concat (dict_keys <$>
                ((fun r => [(LStr "id", VStr r.1); (LStr "author_id", VStr r.2)])
                   <$> rows)) →
  x ∈ [LStr "id"; LStr "author_id"].
Proof.
  induction rows as [|r rows IH]; [by intros ?%elem_of_nil|].
  rewrite !fmap_cons. cbn [concat]. rewrite elem_of_app. intros [Hx|Hx]; auto.
Qed.

Lemma tweet_table_cons r rows :
  tweet_table (r :: rows)
  = mkDF (range_index (S (List.length rows))) [LStr "id"; LStr "author_id"]
         ((fun r => [VStr r.1; VStr r.2]) <$> r :: rows).
Proof.
  unfold tweet_table, frame_of_records.
  assert (first_seen []
            (concat (dict_keys <$>
               ((fun r => [(LStr "id", VStr r.1); (LStr "author_id", VStr r.2)])
                  <$> r :: rows)))
          = [LStr "id"; LStr "author_id"]) as ->.
  { simpl. do 2 f_equal. apply first_seen_all_seen.
    intros x Hx%tweet_rows_keys. revert Hx. rewrite !elem_of_cons. naive_solver. }
  rewrite length_fmap. f_equal.
  rewrite <- list_fmap_compose. by apply list_fmap_ext.
Qed.

Lemma mapM_id_labels (rows : list (string * string)) :
  mapM (fun r => as_label (cell r 0)) ((fun r => [VStr r.1; VStr r.2]) <$> rows)
  = Ok ((fun r => LStr r.1) <$> rows).
Proof.
  induction rows as [|r rows IH]; [done|].
  rewrite !fmap_cons. simpl. by rewrite IH.
Qed.

Lemma author_index_lookup (rows : list (string * string)) (m : gmap label pyval) id :
  foldl (fun m kv => <[kv.1 := kv.2]> m) m
        ((fun r => (LStr r.1, VStr r.2)) <$> rows) !! LStr id
  = match last_author rows id with
    | Some a => Some (VStr a)
    | None => m !! LStr id
    end.
Proof.
  induction rows as [|r rows IH] using rev_ind; [done|].
  unfold last_author. rewrite fmap_app, !foldl_app. simpl.
  fold (last_author rows id).
  destruct (decide (r.1 = id)) as [->|Hne].
  - by rewrite lookup_insert_eq.
  - rewrite lookup_insert_ne by congruence. apply IH.
Qed.

Lemma zip_fmap_same {A B C} (f : A → B) (g : A → C) (l : list A) :
  zip (f <$> l) (g <$> l) = (fun x => (f x, g x)) <$> l.
Proof. induction l as [|x l IH]; [done|]. rewrite !fmap_cons. simpl. by rewrite IH. Qed.

(** X5: the id index of a table of tweets gives, for every id, the author
    of the last row with that id, and has no entry for an id of no row: a
    repeated id keeps the later author. *)
Theorem author_by_id_last_row (rows : list (string * string)) :
  rows ≠ [] →
  ∃ d, author_by_id (tweet_table rows) = Ok d ∧
       ∀ id, d !! LStr id = VStr <$> last_author rows id.
Proof.
  destruct rows as [|r rows]; [done|]. intros _.
  rewrite tweet_table_cons. unfold author_by_id, set_index.
  cbn [df_columns df_rows].
  change (column_pos (LStr "id") [LStr "id"; LStr "author_id"]) with (Some 0%nat).
  cbv beta iota. rewrite mapM_id_labels. cbn [mbind py_bind].
  unfold df_getitem. cbn [df_columns df_rows df_index].
  change (column_pos (LStr "author_id") (delete 0%nat [LStr "id"; LStr "author_id"]))
    with (Some 0%nat).
  cbv beta iota. eexists. split; [done|].
  intros id. unfold Series_to_dict. cbn [s_index s_values].
  rewrite <- !list_fmap_compose.
  rewrite (list_fmap_ext _ (fun r => VStr r.2) (r :: rows)) by done.
  rewrite (zip_fmap_same (fun r => LStr r.1) (fun r => VStr r.2)).
  rewrite author_index_lookup. by destruct (last_author _ _).
Qed.

Lemma author_by_id_last_row_witness :
  [("t0", "u0"); ("t1", "u1"); ("t0", "u2")] ≠ [] ∧
  ∃ d, author_by_id (tweet_table [("t0", "u0"); ("t1", "u1"); ("t0", "u2")]) = Ok d ∧
       ∀ id, d !! LStr id
             = VStr <$> last_author [("t0", "u0"); ("t1", "u1"); ("t0", "u2")] id.
Proof.
  assert ([("t0", "u0"); ("t1", "u1"); ("t0", "u2")] ≠ @nil (string * string))
    as H by discriminate.
  split; [exact H|].
  exact (author_by_id_last_row [("t0", "u0"); ("t1", "u1"); ("t0", "u2")] H).
Defined.

(** ** Extractors *)

Lemma pd_DataFrame_records P (recs : list (list (label * pyval))) :
  pd_DataFrame P (VList (VDict <$> recs)) = Ok (frame_of_records recs).
Proof.
  destruct recs as [|d recs]; [done|].
  rewrite fmap_cons. cbn [pd_DataFrame].
  change (VDict d :: (VDict <$> recs)) with (VDict <$> d :: recs).
  by rewrite as_records_VDict.
Qed.

Lemma frame_of_records_no_column (recs : list (list (label * pyval))) k :
  Forall (fun d => k ∉ d.*1) recs →
  column_pos k (df_columns (frame_of_records recs)) = None.
Proof.
  intros Hrecs. apply column_pos_None. unfold frame_of_records. cbn [df_columns].
  rewrite first_seen_elem. intros [Hx%records_keys _].
  apply Exists_exists in Hx as (d & Hd & Hk).
  rewrite Forall_forall in Hrecs. by apply (Hrecs d).
Qed.

Lemma df_getitem_no_column (recs : list (list (label * pyval))) k :
  Forall (fun d => k ∉ d.*1) recs →
  df_getitem (frame_of_records recs) k = Raise KeyError.
Proof.
  intros Hrecs. unfold df_getitem. by rewrite frame_of_records_no_column.
Qed.

(** X6: [parse_data] reads the ["public_metrics"] column before its [try]:
    a batch in which no tweet has that field, the empty batch among them,
    raises [KeyError], whether or not the tweets have referenced tweets. *)
Theorem parse_data_without_metrics P (recs : list (list (label * pyval))) :
  Forall (fun d => LStr "public_metrics" ∉ d.*1) recs →
  parse_data P (VList (VDict <$> recs)) = Raise KeyError.
Proof.
  intros Hrecs. unfold parse_data. rewrite pd_DataFrame_records.
  cbn [mbind py_bind].
  by rewrite (df_getitem_no_column recs (LStr "public_metrics") Hrecs).
Qed.

Lemma parse_data_without_metrics_witness :
  Forall (fun d : list (label * pyval) => LStr "public_metrics" ∉ d.*1)
         [[(LStr "id", VStr "1")]] ∧
  parse_data plain_pandas (VList (VDict <$> [[(LStr "id", VStr "1")]]))
  = Raise KeyError.
Proof.
  assert (Forall (fun d : list (label * pyval) => LStr "public_metrics" ∉ d.*1)
                 [[(LStr "id", VStr "1")]]) as H.
  { repeat constructor. compute_done. }
  split; [exact H|].
  exact (parse_data_without_metrics plain_pandas [[(LStr "id", VStr "1")]] H).
Defined.

(** X7: when the response has no ["includes"] section, or the section has
    no ["users"] (["media"]), [parse_users] ([parse_media]) returns the
    empty table and logs one informational record that carries the file
    name; nothing else of the store changes. *)
Theorem parse_users_media_missing_section P (d : list (label * pyval)) file s :
  assoc (LStr "includes") d = None ∨
  (∃ inc, assoc (LStr "includes") d = Some (VDict inc) ∧
          assoc (LStr "users") inc = None ∧ assoc (LStr "media") inc = None) →
  parse_users P (VDict d) OLogger file s
  = (Ok empty_frame,
     mkStore (heap s) (next s) (not_loaded s)
             (log s ++ [(INFO, NoUsers file)]) (disk s)) ∧
  parse_media P (VDict d) OLogger file s
  = (Ok empty_frame,
     mkStore (heap s) (next s) (not_loaded s)
             (log s ++ [(INFO, NoMedia file)]) (disk s)).
Proof.
  intros [Hd|(inc & Hd & Hu & Hm)]; unfold parse_users, parse_media, getitem;
    rewrite Hd; cbn [mbind py_bind]; [done|].
  by rewrite Hu, Hm.
Qed.

Lemma parse_users_media_missing_section_witness :
  (assoc (LStr "includes") [(LStr "data", VList [])] = None ∨
   (∃ inc, assoc (LStr "includes") [(LStr "data", VList [])] = Some (VDict inc) ∧
           assoc (LStr "users") inc = None ∧ assoc (LStr "media") inc = None)) ∧
  parse_users plain_pandas (VDict [(LStr "data", VList [])]) OLogger
    (Some "a.json") empty_store
  = (Ok empty_frame, mkStore ∅ 0 [] [(INFO, NoUsers (Some "a.json"))] ∅).
Proof.
  assert (assoc (LStr "includes") [(LStr "data", VList [])] = None ∨
          (∃ inc, assoc (LStr "includes") [(LStr "data", VList [])] = Some (VDict inc) ∧
                  assoc (LStr "users") inc = None ∧ assoc (LStr "media") inc = None))
    as H by (left; reflexivity).
  split; [exact H|].
  exact (proj1 (parse_users_media_missing_section plain_pandas
                  [(LStr "data", VList [])] (Some "a.json") empty_store H)).
Defined.

(** X8: only [KeyError] is handled there: when ["includes"] is present but
    is not a dictionary (a JSON [null] or list), both extractors raise
    [TypeError] and log nothing. *)
Theorem parse_users_media_includes_not_a_dict P (d : list (label * pyval))
    v logger file s :
  assoc (LStr "includes") d = Some v →
  (∀ inc, v ≠ VDict inc) →
  parse_users P (VDict d) logger file s = (Raise TypeError, s) ∧
  parse_media P (VDict d) logger file s = (Raise TypeError, s).
Proof.
  intros Hd Hv. unfold parse_users, parse_media, getitem. rewrite Hd.
  cbn [mbind py_bind]. destruct v; try done. by destruct (Hv d0).
Qed.

Lemma parse_users_media_includes_not_a_dict_witness :
  assoc (LStr "includes") [(LStr "includes", VNone)] = Some VNone ∧
  (∀ inc, VNone ≠ VDict inc) ∧
  parse_users plain_pandas (VDict [(LStr "includes", VNone)]) OLogger None empty_store
  = (Raise TypeError, empty_store).
Proof.
  assert (assoc (LStr "includes") [(LStr "includes", VNone)] = Some VNone)
    as H1 by reflexivity.
  assert (∀ inc, VNone ≠ VDict inc) as H2 by (intros inc; discriminate).
  split; [exact H1|]. split; [exact H2|].
  exact (proj1 (parse_users_media_includes_not_a_dict plain_pandas
                  [(LStr "includes", VNone)] VNone OLogger None empty_store H1 H2)).
Defined.

(** X9: [parse_users] reads ["public_metrics"] outside any [try]: a users
    section in which no user has that field, the empty list among them,
    raises [KeyError] and logs nothing, where a missing section gives the
    empty table. *)
Theorem parse_users_without_metrics P (d inc : list (label * pyval))
    (recs : list (list (label * pyval))) logger file s :
  assoc (LStr "includes") d = Some (VDict inc) →
  assoc (LStr "users") inc = Some (VList (VDict <$> recs)) →
  Forall (fun u => LStr "public_metrics" ∉ u.*1) recs →
  parse_users P (VDict d) logger file s = (Raise KeyError, s).
Proof.
  intros Hd Hu Hrecs. unfold parse_users, getitem. rewrite Hd.
  cbn [mbind py_bind]. rewrite Hu. rewrite pd_DataFrame_records.
  cbn [mbind py_bind].
  by rewrite (df_getitem_no_column recs (LStr "public_metrics") Hrecs).
Qed.

Lemma parse_users_without_metrics_witness :
  assoc (LStr "includes") [(LStr "includes", VDict [(LStr "users", VList [])])]
  = Some (VDict [(LStr "users", VList [])]) ∧
  assoc (LStr "users") [(LStr "users", VList [])]
  = Some (VList (VDict <$> [])) ∧
  Forall (fun u : list (label * pyval) => LStr "public_metrics" ∉ u.*1) [] ∧
  parse_users plain_pandas
    (VDict [(LStr "includes", VDict [(LStr "users", VList [])])])
    OLogger None empty_store
  = (Raise KeyError, empty_store).
Proof.
  assert (assoc (LStr "includes") [(LStr "includes", VDict [(LStr "users", VList [])])]
          = Some (VDict [(LStr "users", VList [])])) as H1 by reflexivity.
  assert (assoc (LStr "users") [(LStr "users", VList [])]
          = Some (VList (VDict <$> []))) as H2 by reflexivity.
  assert (Forall (fun u : list (label * pyval) => LStr "public_metrics" ∉ u.*1) [])
    as H3 by constructor.
  split; [exact H1|]. split; [exact H2|]. split; [exact H3|].
  exact (parse_users_without_metrics plain_pandas _ _ [] OLogger None empty_store
           H1 H2 H3).
Defined.

(** X10: [parse_ref] does not check the type of an entry: a single entry
    [{type: ty, id}] gives the default record with the field [ty] set to
    the id, so a type other than the three known ones adds a fourth field
    to the record. *)
Theorem parse_ref_any_type P (ty id : string) :
  parse_ref P (VList [VDict [(LStr "type", VStr ty); (LStr "id", VStr id)]])
  = Ok (VDict (dict_set (LStr ty) (VStr id) default_ref)) ∧
  (LStr ty ∉ default_ref.*1 →
   dict_set (LStr ty) (VStr id) default_ref = default_ref ++ [(LStr ty, VStr id)]).
Proof.
  split.
  - unfold parse_ref, parse_ref_body.
    change (pd_DataFrame P (VList [VDict [(LStr "type", VStr ty); (LStr "id", VStr id)]]))
      with (Ok (mkDF [LInt 0] [LStr "type"; LStr "id"] [[VStr ty; VStr id]])).
    cbn [mbind py_bind].
    change (set_index (LStr "type")
              (mkDF [LInt 0] [LStr "type"; LStr "id"] [[VStr ty; VStr id]]))
      with (Ok (mkDF [LStr ty] [LStr "id"] [[VStr id]])).
    cbn [mbind py_bind].
    change (to_dict_records
              (reset_index_drop (transpose (mkDF [LStr ty] [LStr "id"] [[VStr id]]))))
      with [VDict [(LStr ty, VStr id)]].
    cbn [list_getitem lookup list_lookup mbind py_bind try_except].
    unfold dict_update. cbn [dict_keys fmap list_fmap fst first_seen foldl assoc].
    rewrite (decide_False (P := LStr ty ∈ [])) by apply not_elem_of_nil.
    cbn [foldl]. by rewrite decide_True.
  - unfold default_ref. cbn. rewrite !not_elem_of_cons. intros (H1 & H2 & H3 & _).
    by rewrite !decide_False.
Qed.

Lemma mapM_parse_ref_cells P (ess : list (option (list (reftype * string)))) :
  mapM (parse_ref P) (reference_cell <$> ess)
  = Ok ((fun o => ref_record (default [] o)) <$> ess).
Proof.
  induction ess as [|o ess IH]; [done|].
  rewrite !fmap_cons. cbn [mapM].
  assert (parse_ref P (reference_cell o) = Ok (ref_record (default [] o))) as ->.
  { destruct o as [es|]; [apply parse_ref_reference_list|done]. }
  cbn [mbind py_bind]. by rewrite IH.
Qed.

Lemma ref_records_keys (ess : list (option (list (reftype * string)))) x :
  x ∈ concat (dict_keys <$>
                ((fun o => [(LStr "replied_to", VStr (resolved (default [] o) replied_to));
                            (LStr "quoted", VStr (resolved (default [] o) quoted));
                            (LStr "retweeted", VStr (resolved (default [] o) retweeted))])
                   <$> ess)) →
  x ∈ [LStr "replied_to"; LStr "quoted"; LStr "retweeted"].
Proof.
  induction ess as [|o ess IH]; [by intros ?%elem_of_nil|].
  rewrite !fmap_cons. cbn [concat]. rewrite elem_of_app. intros [Hx|Hx]; auto.
Qed.

Lemma frame_of_ref_records (ess : list (option (list (reftype * string)))) :
  ess ≠ [] →
  pd_DataFrame plain_pandas (VList ((fun o => ref_record (default [] o)) <$> ess))
  = Ok (ref_table ess) ∧
  ∀ P, pd_DataFrame P (VList ((fun o => ref_record (default [] o)) <$> ess))
       = Ok (ref_table ess).
Proof.
  intros Hne.
  assert (∀ P, pd_DataFrame P (VList ((fun o => ref_record (default [] o)) <$> ess))
               = Ok (ref_table ess)) as H; [|by split].
  intros P. destruct ess as [|o ess]; [done|].
  unfold ref_record.
  rewrite (list_fmap_compose
             (fun o => [(LStr "replied_to", VStr (resolved (default [] o) replied_to));
                        (LStr "quoted", VStr (resolved (default [] o) quoted));
                        (LStr "retweeted", VStr (resolved (default [] o) retweeted))])
             VDict).
  rewrite pd_DataFrame_records. f_equal. unfold frame_of_records, ref_table.
  assert (first_seen []
            (concat (dict_keys <$>
               ((fun o => [(LStr "replied_to", VStr (resolved (default [] o) replied_to));
                           (LStr "quoted", VStr (resolved (default [] o) quoted));
                           (LStr "retweeted", VStr (resolved (default [] o) retweeted))])
                  <$> o :: ess)))
          = [LStr "replied_to"; LStr "quoted"; LStr "retweeted"]) as ->.
  { simpl. do 3 f_equal. apply first_seen_all_seen.
    intros x Hx%ref_records_keys. revert Hx. rewrite !elem_of_cons. naive_solver. }
  rewrite length_fmap. f_equal.
  rewrite <- list_fmap_compose. by apply list_fmap_ext.
Qed.

(** X11: on a batch that has a ["referenced_tweets"] column, [parse_data]
    returns the original fields, the expanded metrics and the resolved
    references side by side: the columns of the result are those of the
    table, then those of the metrics, then [replied_to], [quoted],
    [retweeted]; every tweet keeps its row, and a tweet without references
    gets three empty strings. *)
Theorem parse_data_with_references P data df metrics idx
    (ess : list (option (list (reftype * string)))) :
  pd_DataFrame P data = Ok df →
  (df_getitem df "public_metrics" ≫= apply_pd_Series P) = Ok metrics →
  df_getitem df "referenced_tweets" = Ok (mkSeries idx (reference_cell <$> ess)) →
  ess ≠ [] →
  df_index df = range_index (List.length ess) →
  df_index metrics = df_index df →
  ∃ out, parse_data P data = Ok out ∧
         out = hstack [df; metrics; ref_table ess] ∧
         df_index out = df_index df ∧
         df_columns out
         = df_columns df ++ df_columns metrics
           ++ [LStr "replied_to"; LStr "quoted"; LStr "retweeted"].
Proof.
  intros Hdf Hm Href Hne Hidx Hmidx.
  exists (hstack [df; metrics; ref_table ess]). split; [|split; [done|split]].
  - unfold parse_data. rewrite Hdf. cbn [mbind py_bind]. rewrite Hm.
    cbn [mbind py_bind]. rewrite Href. cbn [mbind py_bind s_values].
    rewrite mapM_parse_ref_cells. cbn [mbind py_bind].
    rewrite (proj2 (frame_of_ref_records ess Hne) P). cbn [mbind py_bind].
    unfold pd_concat_axis1, same_index. cbn [forallb].
    rewrite !bool_decide_eq_true_2; [done|by rewrite Hidx|done].
  - done.
  - cbn [hstack df_columns concat fmap list_fmap ref_table app]. done.
Qed.

Lemma parse_data_with_references_witness :
  [Some [(quoted, "9")]; None] ≠ [] ∧
  ∃ out, parse_data plain_pandas example_batch_with_references = Ok out ∧
         df_columns out
         = [LStr "id"; LStr "public_metrics"; LStr "referenced_tweets";
            LStr "retweet_count"; LStr "replied_to"; LStr "quoted"; LStr "retweeted"] ∧
         df_rows out !! 1%nat
         = Some [VStr "2"; VDict [(LStr "retweet_count", VInt 4)]; VNaN; VInt 4;
                 VStr ""; VStr ""; VStr ""].
Proof.
  assert ([Some [(quoted, "9")]; None] ≠ @nil (option (list (reftype * string))))
    as Hne by discriminate.
  split; [exact Hne|].
  destruct (parse_data_with_references plain_pandas example_batch_with_references
              _ _ [LInt 0; LInt 1] [Some [(quoted, "9")]; None]
              eq_refl eq_refl eq_refl Hne eq_refl eq_refl)
    as (out & Hout & -> & _ & _).
  exists (hstack
            [frame_of_records
               [[(LStr "id", VStr "1");
                 (LStr "public_metrics", VDict [(LStr "retweet_count", VInt 3)]);
                 (LStr "referenced_tweets", reference_list [(quoted, "9")])];
                [(LStr "id", VStr "2");
                 (LStr "public_metrics", VDict [(LStr "retweet_count", VInt 4)])]];
             mkDF [LInt 0; LInt 1] [LStr "retweet_count"] [[VInt 3]; [VInt 4]];
             ref_table [Some [(quoted, "9")]; None]]).
  split; [exact Hout|]. split; reflexivity.
Defined.

(** ** Reference resolver: absent and malformed input *)

Lemma parse_ref_of_failure P t :
  raises (parse_ref_body P t) → parse_ref P t = Ok (VDict default_ref).
Proof. intros [e He]. unfold parse_ref. by rewrite He. Qed.

Lemma as_records_not_all_dicts (l : list pyval) :
  Exists (fun v => ∀ d, v ≠ VDict d) l → as_records l = None.
Proof.
  induction 1 as [v l Hv|v l _ IH].
  - destruct v; try done. by destruct (Hv d).
  - destruct v; try done. cbn [as_records]. by rewrite IH.
Qed.

Lemma first_seen_one_key k seen l :
  Forall (fun x => x = k) l → first_seen seen l = [] ∨ first_seen seen l = [k].
Proof.
  intros Hl. revert seen. induction Hl as [|x l -> Hl IH]; intros seen; [by left|].
  simpl. case_decide; [apply IH|]. right. f_equal.
  apply first_seen_all_seen. intros x Hx.
  rewrite Forall_forall in Hl. rewrite (Hl x Hx). left.
Qed.

Lemma columns_only_type (recs : list (list (label * pyval))) :
  Forall (fun d => ∀ k, k ∈ d.*1 → k = LStr "type") recs →
  df_columns (frame_of_records recs) = [] ∨
  df_columns (frame_of_records recs) = [LStr "type"].
Proof.
  intros Hrecs. unfold frame_of_records. cbn [df_columns].
  apply first_seen_one_key. apply Forall_forall. intros x Hx%records_keys.
  apply Exists_exists in Hx as (d & Hd & Hk).
  rewrite Forall_forall in Hrecs. by apply (Hrecs d).
Qed.

Lemma mapM_raises {A B} (f : A → py B) (l : list A) x :
  x ∈ l → raises (f x) → raises (mapM f l).
Proof.
  intros Hx [e He]. induction l as [|y l IH]; [by apply elem_of_nil in Hx|].
  cbn [mapM]. apply elem_of_cons in Hx as [<-|Hx].
  - rewrite He. by exists e.
  - destruct (f y); [|by eexists]. cbn [mbind py_bind].
    destruct (IH Hx) as [e' ->]. by exists e'.
Qed.

Lemma frame_cell (recs : list (list (label * pyval))) d j k :
  d ∈ recs →
  df_columns (frame_of_records recs) !! j = Some k →
  ∃ r, r ∈ df_rows (frame_of_records recs) ∧ cell r j = default VNaN (assoc k d).
Proof.
  intros Hd Hj. unfold frame_of_records in *. cbn [df_columns df_rows] in *.
  eexists. split; [apply list_elem_of_fmap; by exists d|].
  unfold cell. by rewrite list_lookup_fmap, Hj.
Qed.

(** A list of records in which a ["type"] value cannot be hashed: building
    the row labels fails. *)
Lemma parse_ref_unhashable_type P (recs : list (list (label * pyval))) d v :
  d ∈ recs →
  assoc (LStr "type") d = Some v →
  (∀ k, classify_key v ≠ Hashable k) →
  parse_ref P (VList (VDict <$> recs)) = Ok (VDict default_ref).
Proof.
  intros Hd Hty Hv. apply parse_ref_of_failure.
  unfold parse_ref_body. rewrite pd_DataFrame_records. cbn [mbind py_bind].
  assert (LStr "type" ∈ df_columns (frame_of_records recs)) as Hcol.
  { unfold frame_of_records. cbn [df_columns]. rewrite first_seen_elem.
    split; [|apply not_elem_of_nil].
    apply list_elem_of_In, in_concat. exists (dict_keys d). split.
    - apply list_elem_of_In, list_elem_of_fmap. by exists d.
    - apply list_elem_of_In, dict_keys_elem.
      destruct (decide (LStr "type" ∈ d.*1)) as [|Hn]; [done|].
      apply assoc_None in Hn. congruence. }
  apply column_pos_Some in Hcol as (j & Hj & Hcj).
  destruct (frame_cell recs d j (LStr "type") Hd Hcj) as (r & Hr & Hcell).
  rewrite Hty in Hcell. simpl in Hcell.
  assert (raises (set_index (LStr "type") (frame_of_records recs))) as [e ->].
  { unfold set_index. rewrite Hj.
    destruct (mapM_raises (fun r => as_label (cell r j))
                (df_rows (frame_of_records recs)) r Hr) as [e ->]; [|by exists e].
    unfold as_label. rewrite Hcell.
    destruct (classify_key v) as [k| |] eqn:Hk; [by destruct (Hv k)|by eexists..]. }
  by exists e.
Qed.

(** A list of records that have no key but ["type"]: the transposed table
    has no row to take. *)
Lemma parse_ref_type_only P (recs : list (list (label * pyval))) :
  Forall (fun d => ∀ k, k ∈ d.*1 → k = LStr "type") recs →
  parse_ref P (VList (VDict <$> recs)) = Ok (VDict default_ref).
Proof.
  intros Hrecs. unfold parse_ref, parse_ref_body.
  rewrite pd_DataFrame_records. cbn [mbind py_bind]. unfold set_index.
  destruct (columns_only_type recs Hrecs) as [-> | ->]; [done|].
  change (column_pos (LStr "type") [LStr "type"]) with (Some 0%nat). cbv beta iota.
  by destruct (mapM _ _).
Qed.

(** C7, the claim fails as stated: a malformed list on which no step fails
    is not turned into the all-empty record. An entry without ["id"] beside
    a complete entry leaves the id of the complete one and puts NaN in the
    other field; an entry of an unknown type adds a fourth field. *)
Lemma parse_ref_malformed_not_default :
  parse_ref plain_pandas
    (VList [VDict [(LStr "type", VStr "quoted"); (LStr "id", VStr "5")];
            VDict [(LStr "type", VStr "retweeted")]])
  = Ok (VDict [(LStr "replied_to", VStr ""); (LStr "quoted", VStr "5");
               (LStr "retweeted", VNaN)]) ∧
  parse_ref plain_pandas
    (VList [VDict [(LStr "type", VStr "liked"); (LStr "id", VStr "5")]])
  = Ok (VDict [(LStr "replied_to", VStr ""); (LStr "quoted", VStr "");
               (LStr "retweeted", VStr ""); (LStr "liked", VStr "5")]).
Proof. by vm_compute. Qed.

(** C7, amended: [parse_ref] never raises, whatever it is given. It
    returns the all-empty record whenever a step of its body fails, and so
    for the empty list, for an absent list ([None], or the NaN of a missing
    cell), for a scalar or an object that is not data, for a list in which
    a dictionary is followed by an element that is not one, for records
    none of which has a ["type"] key, for records that have no key but
    ["type"], and for records in which a ["type"] value cannot be hashed. *)
Theorem parse_ref_never_raises P (t : pyval) :
  (∃ r, parse_ref P t = Ok r) ∧
  (raises (parse_ref_body P t) → parse_ref P t = Ok (VDict default_ref)) ∧
  parse_ref P (VList []) = Ok (VDict default_ref) ∧
  parse_ref P VNone = Ok (VDict default_ref) ∧
  parse_ref P VNaN = Ok (VDict default_ref) ∧
  (∀ n, parse_ref P (VInt n) = Ok (VDict default_ref)) ∧
  (∀ s, parse_ref P (VStr s) = Ok (VDict default_ref)) ∧
  (∀ o, parse_ref P (VObj o) = Ok (VDict default_ref)) ∧
  (∀ d l, Exists (fun v => ∀ d', v ≠ VDict d') l →
          parse_ref P (VList (VDict d :: l)) = Ok (VDict default_ref)) ∧
  (∀ recs : list (list (label * pyval)),
     Forall (fun d => LStr "type" ∉ d.*1) recs →
     parse_ref P (VList (VDict <$> recs)) = Ok (VDict default_ref)) ∧
  (∀ recs : list (list (label * pyval)),
     Forall (fun d => ∀ k, k ∈ d.*1 → k = LStr "type") recs →
     parse_ref P (VList (VDict <$> recs)) = Ok (VDict default_ref)) ∧
  (∀ (recs : list (list (label * pyval))) d v,
     d ∈ recs → assoc (LStr "type") d = Some v →
     (∀ k, classify_key v ≠ Hashable k) →
     parse_ref P (VList (VDict <$> recs)) = Ok (VDict default_ref)).
Proof.
  split; [|split; [apply parse_ref_of_failure|]].
  - unfold parse_ref, try_except. destruct (parse_ref_body P t); eauto.
  - do 6 (split; [done|]). split; [|split; [|split]].
    + intros d l Hl. unfold parse_ref, parse_ref_body. cbn [pd_DataFrame].
      assert (as_records (VDict d :: l) = None) as ->; [|done].
      cbn [as_records]. by rewrite (as_records_not_all_dicts l Hl).
    + apply parse_ref_untyped.
    + apply parse_ref_type_only.
    + apply parse_ref_unhashable_type.
Qed.

(** ** The run as the file stands *)

(** C3, evaluated on the file as it is: [read_aggregate_pickle] creates its
    four empty accumulators and then reads [os], a name the module never
    binds (line 273): every call, whatever the directory holds and whatever
    the interval, ends in [NameError] there. No file is processed, the four
    accumulators stay empty, no flush trigger is reached, and nothing is
    logged or written. Apart from that, for every namespace the statements
    of a flush (lines 307-328) leave each accumulator as it was: nothing in
    them resets one. *)
Theorem read_aggregate_pickle_raises_NameError P F cache_dir save_dir logger
    agg_interval pickle_protocol debug_mode s :
  (read_aggregate_pickle module_globals P F cache_dir save_dir logger
     agg_interval pickle_protocol debug_mode s).1 = Raise NameError ∧
  heap (read_aggregate_pickle module_globals P F cache_dir save_dir logger
          agg_interval pickle_protocol debug_mode s).2
    = <[S (S (S (next s))) := []]> (<[S (S (next s)) := []]>
        (<[S (next s) := []]> (<[next s := []]> (heap s)))) ∧
  log (read_aggregate_pickle module_globals P F cache_dir save_dir logger
         agg_interval pickle_protocol debug_mode s).2 = log s ∧
  disk (read_aggregate_pickle module_globals P F cache_dir save_dir logger
          agg_interval pickle_protocol debug_mode s).2 = disk s ∧
  (read_aggregate_pickle module_globals plain_pandas example_files "cache" "out"
     OLogger 1 4 false empty_store).1 = Raise NameError ∧
  disk (read_aggregate_pickle module_globals plain_pandas example_files "cache"
          "out" OLogger 1 4 false empty_store).2 = ∅ ∧
  (∀ G A i s',
     heap (flush G P save_dir logger pickle_protocol A i s').2 = heap s').
Proof.
  assert (read_aggregate_pickle module_globals P F cache_dir save_dir logger
            agg_interval pickle_protocol debug_mode s
          = (Raise NameError,
             mkStore (<[S (S (S (next s))) := []]> (<[S (S (next s)) := []]>
                        (<[S (next s) := []]> (<[next s := []]> (heap s)))))
                     (S (S (S (S (next s))))) (not_loaded s) (log s) (disk s)))
    as ->.
  { reflexivity. }
  repeat split; try done; [by vm_compute..|].
  intros G A i s'. apply keeps_flush.
Qed.
